(** * yarlang runtime: the dynamic value model of [src/runtime/value.c]

    A shallow embedding of the boxed [Value] representation, its
    constructors, predicates, operators and built-ins, together with the
    fatal-error channel [yar_error].

    Conventions of the embedding:
    - a C [double] is a primitive binary64 [float];
    - a [char*] is a [string] of 8-bit characters; the C content of such a
      buffer is the prefix before its first NUL character (the end of the
      Rocq string stands for the terminator when no NUL occurs);
    - a [Value*] is the record it points at: every operation of value.c
      only reads its arguments and returns freshly allocated cells, so no
      aliasing is observable; allocation ([GC_malloc]) is assumed to succeed;
    - the process state is the pair of output streams; a computation
      either returns, exits with a status, or has no defined behaviour in C. *)

From Stdlib Require Import ZArith Bool List Lia Ascii String.
From Stdlib Require Import DecimalString Floats.
From Stdlib Require DecimalPos DecimalZ.
Import ListNotations.

Local Open Scope string_scope.
Local Open Scope Z_scope.

(** ** C strings *)

Module CString.

Definition NUL : ascii := Ascii.zero.

Definition is_nul (c : ascii) : bool := Ascii.eqb c NUL.

(** [strlen]: the number of characters before the terminator. *)
Fixpoint strlen (s : string) : nat :=
  match s with
  | EmptyString => O
  | String c r => if is_nul c then O else S (strlen r)
  end.

(** The content a C function sees in the buffer [s]. *)
Fixpoint c_str (s : string) : string :=
  match s with
  | EmptyString => EmptyString
  | String c r => if is_nul c then EmptyString else String c (c_str r)
  end.

(** [strcpy (dst, src)]: the new content of [dst]. *)
Definition strcpy (src : string) : string := c_str src.

(** [strcat (dst, src)]: the new content of [dst]. *)
Definition strcat (dst src : string) : string := c_str dst ++ c_str src.

Definition uchar (c : ascii) : Z := Z.of_N (N_of_ascii c).

(** [strcmp]: the difference of the first pair of characters that differ,
    as unsigned chars, and 0 when both contents end together. *)
Fixpoint strcmp (a b : string) : Z :=
  match a, b with
  | EmptyString, EmptyString => 0
  | EmptyString, String d _ => 0 - uchar d
  | String c _, EmptyString => uchar c - 0
  | String c a', String d b' =>
      if Ascii.eqb c d
      then (if is_nul c then 0 else strcmp a' b')
      else uchar c - uchar d
  end.

(** A buffer content without NUL, as every stored string is. *)
Fixpoint nul_free (s : string) : bool :=
  match s with
  | EmptyString => true
  | String c r => negb (is_nul c) && nul_free r
  end.

End CString.

Import CString.

(** ** The process: output streams, exit, undefined behaviour *)

Record World : Type := mkWorld { stdout : string; stderr : string }.

Inductive Outcome (A : Type) : Type :=
| Returned (a : A) (w : World)
| Exited (status : Z) (w : World)
| Undefined.

Arguments Returned {A} a w.
Arguments Exited {A} status w.
Arguments Undefined {A}.

Definition Run (A : Type) : Type := World -> Outcome A.

Definition ret {A} (a : A) : Run A := fun w => Returned a w.

Definition bind {A B} (m : Run A) (k : A -> Run B) : Run B :=
  fun w =>
    match m w with
    | Returned a w' => k a w'
    | Exited st w' => Exited st w'
    | Undefined => Undefined
    end.

Notation "x <- m ;; k" := (bind m (fun x => k))
  (at level 61, m at next level, right associativity).
Notation "m ;; k" := (bind m (fun _ => k))
  (at level 61, right associativity).

Definition exit {A} (status : Z) : Run A := fun w => Exited status w.

Definition undefined_behaviour {A} : Run A := fun _ => Undefined.

Definition lift_option {A} (o : option A) : Run A :=
  match o with
  | Some a => ret a
  | None => undefined_behaviour
  end.

Inductive Stream : Type := Stdout | Stderr.

Definition write (f : Stream) (s : string) : Run unit :=
  fun w =>
    match f with
    | Stdout => Returned tt (mkWorld (stdout w ++ s) (stderr w))
    | Stderr => Returned tt (mkWorld (stdout w) (stderr w ++ s))
    end.

Definition newline : string := String (ascii_of_nat 10) EmptyString.

(** ** The C library's formatted output, as far as value.c uses it

    The runtime's format strings use the conversions [%s] and [%g] only;
    [%%] is modelled besides, and any other conversion is outside the
    model.  [%g] follows ISO C 7.21.6.1 with the default precision
    P = 6: with X the decimal exponent of the value rounded to P
    significant digits, style [f] with precision P - (X + 1) is used when
    P > X >= -4 and style [e] with precision P - 1 otherwise; trailing
    zeros of the fraction, and a decimal point left bare, are removed.
    Rounding is to nearest, ties to even, on the exact binary value. *)

Module Printf.

Definition dec (n : Z) : string :=
  NilZero.string_of_uint (N.to_uint (Z.to_N n)).

Fixpoint zeros (n : nat) : string :=
  match n with
  | O => EmptyString
  | S k => String "0" (zeros k)
  end.

(** [n] in decimal, at least [width] digits wide. *)
Definition pad0 (width : nat) (n : Z) : string :=
  let s := dec n in zeros (width - String.length s) ++ s.

Fixpoint strip_zeros (s : string) : string :=
  match s with
  | EmptyString => EmptyString
  | String c r =>
      match strip_zeros r with
      | EmptyString => if Ascii.eqb c "0" then EmptyString else String c EmptyString
      | r' => String c r'
      end
  end.

(** Integer part and fraction joined, the fraction without its trailing
    zeros and the point dropped with an empty fraction. *)
Definition join_fraction (ip frac : string) : string :=
  match strip_zeros frac with
  | EmptyString => ip
  | f => ip ++ "." ++ f
  end.

(** [a / b] rounded to the nearest integer, ties to even ([0 <= a], [0 < b]). *)
Definition rdiv (a b : Z) : Z :=
  let q := a / b in
  let r := a mod b in
  match 2 * r ?= b with
  | Lt => q
  | Gt => q + 1
  | Eq => if Z.even q then q else q + 1
  end.

(** [num / den * 10 ^ k], rounded. *)
Definition scale_round (num den k : Z) : Z :=
  if 0 <=? k then rdiv (num * 10 ^ k) den else rdiv num (den * 10 ^ (- k)).

Fixpoint ndigits_aux (fuel : nat) (n : Z) : Z :=
  match fuel with
  | O => 1
  | S f => if n <? 10 then 1 else 1 + ndigits_aux f (n / 10)
  end.

(** The number of decimal digits of [n > 0]. *)
Definition ndigits (n : Z) : Z := ndigits_aux (Z.to_nat (Z.log2 n)) n.

(** [floor (log10 (num / den))] for a positive quotient. *)
Definition floor_log10 (num den : Z) : Z :=
  let x := ndigits num - ndigits den in
  let ge := if 0 <=? x then den * 10 ^ x <=? num else den <=? num * 10 ^ (- x) in
  if ge then x else x - 1.

Definition P : Z := 6.

(** The digits of a positive [num / den] under [%g]. *)
Definition fmt_g_pos (num den : Z) : string :=
  let x0 := floor_log10 num den in
  let d0 := scale_round num den (P - 1 - x0) in
  let '(d, x) := if d0 =? 10 ^ P then (10 ^ (P - 1), x0 + 1) else (d0, x0) in
  if (-4 <=? x) && (x <? P)
  then (* style f, precision P - (x + 1) *)
    let p := P - (x + 1) in
    let f := scale_round num den p in
    join_fraction (dec (f / 10 ^ p)) (pad0 (Z.to_nat p) (f mod 10 ^ p))
  else (* style e, precision P - 1 *)
    join_fraction (dec (d / 10 ^ (P - 1))) (pad0 (Z.to_nat (P - 1)) (d mod 10 ^ (P - 1)))
    ++ "e" ++ (if x <? 0 then "-" else "+") ++ pad0 2 (Z.abs x).

Definition sign_prefix (s : bool) : string := if s then "-" else EmptyString.

(** [%g] of a double that is not a NaN.  For a NaN C writes [nan] or
    [-nan] after the sign bit, which [float] (one NaN) does not carry: the
    text given here for it is that of the NaN without sign, and what is
    proved of the text of a number is proved of the numbers that are not
    NaNs. *)
Definition fmt_g (d : float) : string :=
  match Prim2SF d with
  | S754_nan => "nan"
  | S754_infinity s => sign_prefix s ++ "inf"
  | S754_zero s => sign_prefix s ++ "0"
  | S754_finite s m e =>
      sign_prefix s ++
      (if 0 <=? e then fmt_g_pos (Zpos m * 2 ^ e) 1
       else fmt_g_pos (Zpos m) (2 ^ (- e)))
  end.

Inductive Arg : Type :=
| arg_str (s : string)
| arg_double (d : float).

(** The text a format produces.  [None] when a conversion finds no
    argument of its type, or the format ends inside a conversion (both
    undefined in C), and for every conversion but [%s], [%g] and [%%],
    which this model does not cover. *)
Fixpoint format (fmt : string) (args : list Arg) : option string :=
  match fmt with
  | EmptyString => Some EmptyString
  | String c rest =>
      if Ascii.eqb c "%" then
        match rest with
        | EmptyString => None
        | String d rest' =>
            if Ascii.eqb d "s" then
              match args with
              | arg_str a :: args' => option_map (append (c_str a)) (format rest' args')
              | _ => None
              end
            else if Ascii.eqb d "g" then
              match args with
              | arg_double x :: args' => option_map (append (fmt_g x)) (format rest' args')
              | _ => None
              end
            else if Ascii.eqb d "%" then option_map (String "%") (format rest' args)
            else None
        end
      else option_map (String c) (format rest args)
  end.





End Printf.

Import Printf.

Definition fprintf (f : Stream) (fmt : string) (args : list Arg) : Run unit :=
  s <- lift_option (format fmt args) ;; write f s.

Definition printf (fmt : string) (args : list Arg) : Run unit :=
  fprintf Stdout fmt args.

(** ** Values (value.h) *)

(** [enum ValueType]: a C enumeration is an integer; the enumerators count
    from [VAL_NIL = 0]. *)
Definition ValueType : Type := Z.

Definition VAL_NIL : ValueType := 0.
Definition VAL_BOOL : ValueType := 1.
Definition VAL_NUMBER : ValueType := 2.
Definition VAL_STRING : ValueType := 3.
Definition VAL_FUNCTION : ValueType := 4.

(** [struct FunctionValue]; [ptr] is an opaque address. *)
Record FunctionValue : Type := mkFunctionValue {
  ptr : Z;
  is_native : bool;
  arity : Z
}.

(** The union [as] of [struct Value]: the member last written, or nothing
    when the constructor wrote none ([yar_nil]). *)
Inductive AsUnion : Type :=
| as_unset
| as_set_boolean (b : bool)
| as_set_number (d : float)
| as_set_string (s : string)
| as_set_function (f : FunctionValue).

(** [struct Value]. *)
Record Value : Type := mkValue {
  type : ValueType;
  as_ : AsUnion
}.

(** Reading a member of the union.  value.c reads a member only under the
    tag test that selects it; the value given here for the other members
    is never observed on a value built by a constructor. *)
Definition as_boolean (v : Value) : bool :=
  match as_ v with as_set_boolean b => b | _ => false end.

Definition as_number (v : Value) : float :=
  match as_ v with as_set_number d => d | _ => PrimFloat.zero end.

Definition as_string (v : Value) : string :=
  match as_ v with as_set_string s => s | _ => EmptyString end.

Definition as_function (v : Value) : FunctionValue :=
  match as_ v with as_set_function f => f | _ => mkFunctionValue 0 false 0 end.

(** *** Value constructors *)

Definition yar_nil : Value := mkValue VAL_NIL as_unset.

Definition yar_bool (value : bool) : Value :=
  mkValue VAL_BOOL (as_set_boolean value).

Definition yar_number (value : float) : Value :=
  mkValue VAL_NUMBER (as_set_number value).

Definition yar_string (str : string) : Value :=
  mkValue VAL_STRING (as_set_string (strcpy str)).

Definition yar_function (p : Z) (native : bool) (n : Z) : Value :=
  mkValue VAL_FUNCTION (as_set_function (mkFunctionValue p native n)).

(** The values the constructors build. *)
Inductive constructed : Value -> Prop :=
| c_nil : constructed yar_nil
| c_bool b : constructed (yar_bool b)
| c_number d : constructed (yar_number d)
| c_string s : constructed (yar_string s)
| c_function p native n : constructed (yar_function p native n).

(** *** Type checks *)

Definition yar_is_nil (v : Value) : bool := type v =? VAL_NIL.
Definition yar_is_bool (v : Value) : bool := type v =? VAL_BOOL.
Definition yar_is_number (v : Value) : bool := type v =? VAL_NUMBER.
Definition yar_is_string (v : Value) : bool := type v =? VAL_STRING.
Definition yar_is_function (v : Value) : bool := type v =? VAL_FUNCTION.

Definition yar_is_truthy (v : Value) : bool :=
  if yar_is_nil v then false
  else if yar_is_bool v then as_boolean v
  else true.

Definition yar_type_name (v : Value) : string :=
  match type v with
  | 0 => "nil"
  | 1 => "bool"
  | 2 => "number"
  | 3 => "string"
  | 4 => "function"
  | _ => "unknown"
  end.

(** The five predicates of a value, in the order of value.h. *)
Definition predicates (v : Value) : list bool :=
  [yar_is_nil v; yar_is_bool v; yar_is_number v; yar_is_string v; yar_is_function v].

(** *** Error handling *)

Definition yar_error (fmt : string) (args : list Arg) : Run unit :=
  fprintf Stderr "Runtime error: " [] ;;
  fprintf Stderr fmt args ;;
  fprintf Stderr newline [] ;;
  exit 1.

(** ** Conversions between [double] and [long]

    [long] is taken to be 64 bits wide (the LP64 targets the runtime is
    built for).  ISO C 6.3.1.4: converting a finite double to an integer
    type discards the fractional part; when the integral part is not
    representable, and for infinities and NaN, the behaviour is undefined.
    6.5.5: [a % b] is undefined when [b] is zero or [a / b] is not
    representable; otherwise it is the remainder of the division that
    truncates toward zero. *)

Definition LONG_MIN : Z := - 2 ^ 63.
Definition LONG_MAX : Z := 2 ^ 63 - 1.

Definition in_long (z : Z) : bool := (LONG_MIN <=? z) && (z <=? LONG_MAX).

(** The integral part of a finite double, truncated toward zero. *)
Definition integral_part (f : spec_float) : option Z :=
  match f with
  | S754_zero _ => Some 0
  | S754_finite s m e =>
      let a := if 0 <=? e then Zpos m * 2 ^ e else Zpos m / 2 ^ (- e) in
      Some (if s then - a else a)
  | S754_infinity _ | S754_nan => None
  end.

(** [(long) d] *)
Definition long_of_double (d : float) : option Z :=
  match integral_part (Prim2SF d) with
  | Some z => if in_long z then Some z else None
  | None => None
  end.

(** [(double) n] for an integer [n]: the nearest double, ties to even. *)
Definition double_of_Z (n : Z) : float :=
  SF2Prim (binary_normalize prec emax n 0 false).

(** The double [d] has exactly the integer value [n]. *)
Definition represents (d : float) (n : Z) : Prop :=
  match Prim2SF d with
  | S754_zero _ => n = 0
  | S754_finite s m e =>
      let v := if s then Zneg m else Zpos m in
      if 0 <=? e then n = v * 2 ^ e else n * 2 ^ (- e) = v
  | S754_infinity _ | S754_nan => False
  end.

(** [a % b] on [long] *)
Definition long_rem (a b : Z) : option Z :=
  if b =? 0 then None
  else if (a =? LONG_MIN) && (b =? -1) then None
  else Some (Z.rem a b).

(** ** Operators *)

Definition type_names (a b : Value) : list Arg :=
  [arg_str (yar_type_name a); arg_str (yar_type_name b)].

Definition yar_add (a b : Value) : Run Value :=
  if yar_is_number a && yar_is_number b then
    ret (yar_number (PrimFloat.add (as_number a) (as_number b)))
  else if yar_is_string a && yar_is_string b then
    let result := strcpy (as_string a) in
    let result := strcat result (as_string b) in
    ret (mkValue VAL_STRING (as_set_string result))
  else
    yar_error "Cannot add %s and %s" (type_names a b) ;;
    ret yar_nil.

Definition yar_subtract (a b : Value) : Run Value :=
  if yar_is_number a && yar_is_number b then
    ret (yar_number (PrimFloat.sub (as_number a) (as_number b)))
  else
    yar_error "Cannot subtract %s and %s" (type_names a b) ;;
    ret yar_nil.

Definition yar_multiply (a b : Value) : Run Value :=
  if yar_is_number a && yar_is_number b then
    ret (yar_number (PrimFloat.mul (as_number a) (as_number b)))
  else
    yar_error "Cannot multiply %s and %s" (type_names a b) ;;
    ret yar_nil.

Definition yar_divide (a b : Value) : Run Value :=
  if yar_is_number a && yar_is_number b then
    if PrimFloat.eqb (as_number b) PrimFloat.zero then
      yar_error "Division by zero" [] ;;
      ret yar_nil
    else
      ret (yar_number (PrimFloat.div (as_number a) (as_number b)))
  else
    yar_error "Cannot divide %s and %s" (type_names a b) ;;
    ret yar_nil.

Definition yar_modulo (a b : Value) : Run Value :=
  if yar_is_number a && yar_is_number b then
    x <- lift_option (long_of_double (as_number a)) ;;
    y <- lift_option (long_of_double (as_number b)) ;;
    r <- lift_option (long_rem x y) ;;
    ret (yar_number (double_of_Z r))
  else
    yar_error "Cannot modulo %s and %s" (type_names a b) ;;
    ret yar_nil.

Definition yar_eq (a b : Value) : Value :=
  if negb (type a =? type b) then yar_bool false
  else
    match type a with
    | 0 => yar_bool true
    | 1 => yar_bool (Bool.eqb (as_boolean a) (as_boolean b))
    | 2 => yar_bool (PrimFloat.eqb (as_number a) (as_number b))
    | 3 => yar_bool (strcmp (as_string a) (as_string b) =? 0)
    | _ => yar_bool false
    end.

Definition yar_neq (a b : Value) : Value :=
  let eq := yar_eq a b in
  yar_bool (negb (as_boolean eq)).

Definition compare_numbers (op : float -> float -> bool) (a b : Value) : Run Value :=
  if yar_is_number a && yar_is_number b then
    ret (yar_bool (op (as_number a) (as_number b)))
  else
    yar_error "Cannot compare %s and %s" (type_names a b) ;;
    ret (yar_bool false).

Definition yar_lt : Value -> Value -> Run Value :=
  compare_numbers PrimFloat.ltb.
Definition yar_gt : Value -> Value -> Run Value :=
  compare_numbers (fun x y => PrimFloat.ltb y x).
Definition yar_lte : Value -> Value -> Run Value :=
  compare_numbers PrimFloat.leb.
Definition yar_gte : Value -> Value -> Run Value :=
  compare_numbers (fun x y => PrimFloat.leb y x).

Definition yar_and (a b : Value) : Value :=
  yar_bool (yar_is_truthy a && yar_is_truthy b).

Definition yar_or (a b : Value) : Value :=
  yar_bool (yar_is_truthy a || yar_is_truthy b).

Definition yar_not (v : Value) : Value :=
  yar_bool (negb (yar_is_truthy v)).

Definition yar_negate (v : Value) : Run Value :=
  if yar_is_number v then
    ret (yar_number (PrimFloat.opp (as_number v)))
  else
    yar_error "Cannot negate %s" [arg_str (yar_type_name v)] ;;
    ret yar_nil.

(** ** Built-in functions *)

Definition yar_print (v : Value) : Run unit :=
  match type v with
  | 0 => printf "nil" []
  | 1 => printf "%s" [arg_str (if as_boolean v then "true" else "false")]
  | 2 => printf "%g" [arg_double (as_number v)]
  | 3 => printf "%s" [arg_str (as_string v)]
  | 4 => printf "<function>" []
  | _ => ret tt
  end.

Definition yar_println (v : Value) : Run unit :=
  yar_print v ;;
  printf newline [].

Definition yar_len (v : Value) : Run Value :=
  if yar_is_string v then
    ret (yar_number (double_of_Z (Z.of_nat (strlen (as_string v)))))
  else
    yar_error "len() requires string, got %s" [arg_str (yar_type_name v)] ;;
    ret yar_nil.

Definition yar_type (v : Value) : Value :=
  yar_string (yar_type_name v).

(** The empty process state, for examples. *)
Definition w0 : World := mkWorld EmptyString EmptyString.

(** ** Console helpers (runtime.c) *)

(** [%d] of an [int32_t]: the decimal digits, after a minus sign for a
    negative value. *)
Definition fmt_d (value : Z) : string := NilZero.string_of_int (Z.to_int value).

Definition println (msg : string) : Run unit :=
  printf ("%s" ++ newline) [arg_str msg].

(** [printf ("%d\n", value)]; [format] has no [%d], the text is written
    directly. *)
Definition println_i32 (value : Z) : Run unit :=
  write Stdout (fmt_d value ++ newline).

Definition println_bool (value : bool) : Run unit :=
  printf (if value then "true" ++ newline else "false" ++ newline) [].

Definition panic (msg : string) : Run unit :=
  fprintf Stderr ("panic: %s" ++ newline) [arg_str msg] ;;
  exit 1.

(** The process state a fatal error leaves: one diagnostic line on the
    error stream, exit status 1. *)
Definition fatal {A} (w : World) (msg : string) : Outcome A :=
  Exited 1 (mkWorld (stdout w) (stderr w ++ "Runtime error: " ++ msg ++ newline)).

(** The process state after the text [s] went to the output stream. *)
Definition printed (w : World) (s : string) : Outcome unit :=
  Returned tt (mkWorld (stdout w ++ s) (stderr w)).

(** ** Shapes of outcomes, for stating what the operators leave behind *)

(** The operators of value.c that take two values and may raise a fatal
    error, [yar_modulo] apart (its conversions may be undefined). *)
Definition binary_operators : list (Value -> Value -> Run Value) :=
  [yar_add; yar_subtract; yar_multiply; yar_divide;
   yar_lt; yar_gt; yar_lte; yar_gte].

(** An outcome that either returns in the state [w] or is a fatal error
    raised in [w]. *)
Definition returns_or_fatal {A} (w : World) (o : Outcome A) : Prop :=
  match o with
  | Returned _ w' => w' = w
  | Exited st w' => exists msg, Exited st w' = @fatal A w msg
  | Undefined => False
  end.

(** The boolean a comparison or logical operator returned. *)
Definition returned_bool (o : Outcome Value) : option bool :=
  match o with
  | Returned v _ => if yar_is_bool v then Some (as_boolean v) else None
  | _ => None
  end.

(** * Properties *)

(** ** C strings *)

Section CStringFacts.

Lemma c_str_nul_free (s : string) : nul_free (c_str s) = true.
Proof.
  induction s as [|c r IH]; simpl; [reflexivity|].
  destruct (is_nul c) eqn:E; simpl; [reflexivity|].
  now rewrite E, IH.
Qed.

Lemma c_str_fixed (s : string) : nul_free s = true -> c_str s = s.
Proof.
  induction s as [|c r IH]; simpl; [reflexivity|].
  intros H. apply andb_prop in H. destruct H as [Hc Hr].
  apply negb_true_iff in Hc. rewrite Hc. now rewrite IH.
Qed.

Lemma c_str_idem (s : string) : c_str (c_str s) = c_str s.
Proof. apply c_str_fixed, c_str_nul_free. Qed.

Lemma nul_free_app (a b : string) :
  nul_free a = true -> nul_free b = true -> nul_free (a ++ b) = true.
Proof.
  induction a as [|c r IH]; simpl; [tauto|].
  intros H Hb. apply andb_prop in H. destruct H as [Hc Hr].
  now rewrite Hc, IH.
Qed.

Lemma strlen_c_str (s : string) : strlen s = String.length (c_str s).
Proof.
  induction s as [|c r IH]; simpl; [reflexivity|].
  destruct (is_nul c); simpl; congruence.
Qed.

Lemma uchar_inj (c d : ascii) : uchar c = uchar d -> c = d.
Proof.
  unfold uchar. intros H. apply N2Z.inj in H.
  rewrite <- (ascii_N_embedding c), <- (ascii_N_embedding d). now f_equal.
Qed.

Lemma uchar_zero (c : ascii) : uchar c = 0 -> is_nul c = true.
Proof.
  intros H. unfold is_nul. apply Ascii.eqb_eq. apply uchar_inj.
  rewrite H. reflexivity.
Qed.

Lemma is_nul_uchar (c : ascii) : is_nul c = true -> uchar c = 0.
Proof.
  unfold is_nul. intros H. apply Ascii.eqb_eq in H. subst c. reflexivity.
Qed.

(** [strcmp] returns 0 exactly on buffers with the same content. *)
Lemma strcmp_zero_iff (a b : string) : strcmp a b = 0 <-> c_str a = c_str b.
Proof.
  revert b. induction a as [|c a IH]; intros [|d b]; simpl.
  - tauto.
  - destruct (is_nul d) eqn:E.
    + apply is_nul_uchar in E. rewrite E. tauto.
    + split; [|discriminate]. intros H.
      assert (Hz : uchar d = 0) by lia.
      apply uchar_zero in Hz. congruence.
  - destruct (is_nul c) eqn:E.
    + apply is_nul_uchar in E. rewrite E. tauto.
    + split; [|discriminate]. intros H.
      assert (Hz : uchar c = 0) by lia.
      apply uchar_zero in Hz. congruence.
  - destruct (Ascii.eqb c d) eqn:Ecd.
    + apply Ascii.eqb_eq in Ecd. subst d.
      destruct (is_nul c); [tauto|].
      rewrite IH. split; [congruence|]. intros H. now injection H.
    + apply Ascii.eqb_neq in Ecd.
      assert (Hne : uchar c - uchar d <> 0).
      { intros H. apply Ecd, uchar_inj. lia. }
      split; [tauto|]. intros H. exfalso.
      destruct (is_nul c) eqn:Ec, (is_nul d) eqn:Ed.
      * apply Ecd. unfold is_nul in Ec, Ed.
        apply Ascii.eqb_eq in Ec, Ed. congruence.
      * discriminate.
      * discriminate.
      * injection H. intros _ Hcd. auto.
Qed.

Lemma strcmp_eqb (a b : string) :
  (strcmp a b =? 0) = String.eqb (c_str a) (c_str b).
Proof.
  destruct (String.eqb (c_str a) (c_str b)) eqn:E.
  - apply String.eqb_eq in E. apply Z.eqb_eq. now apply strcmp_zero_iff.
  - apply String.eqb_neq in E. apply Z.eqb_neq. now rewrite strcmp_zero_iff.
Qed.

End CStringFacts.

(** ** Type tags *)

(** Case analysis on a tag met in a [switch]. *)
Ltac switch_tag t :=
  let p := fresh "p" in
  destruct t as [|p|p]; simpl; eauto 10;
  repeat (destruct p as [p|p|]; simpl; eauto 10).

Lemma type_name_label (v : Value) :
  In (yar_type_name v) ["nil"; "bool"; "number"; "string"; "function"; "unknown"].
Proof. unfold yar_type_name. switch_tag (type v). Qed.

Lemma type_name_nul_free (v : Value) : c_str (yar_type_name v) = yar_type_name v.
Proof.
  pose proof (type_name_label v) as H. simpl in H.
  repeat (destruct H as [H|H]; [rewrite <- H; reflexivity|]).
  contradiction.
Qed.

(** ** Truthiness *)

(** C1. Truthiness follows one rule: a value tagged nil is false, a value
    tagged bool is its payload, a value of any other tag is true; so
    [yar_nil] is false, [yar_bool b] is [b], and every number (zero
    included), every string (the empty one included) and every function is
    true. *)
Theorem truthiness_rule :
  (forall v : Value,
      (type v = VAL_NIL -> yar_is_truthy v = false) /\
      (type v = VAL_BOOL -> yar_is_truthy v = as_boolean v) /\
      (type v <> VAL_NIL -> type v <> VAL_BOOL -> yar_is_truthy v = true)) /\
  yar_is_truthy yar_nil = false /\
  (forall b, yar_is_truthy (yar_bool b) = b) /\
  (forall d, yar_is_truthy (yar_number d) = true) /\
  (forall s, yar_is_truthy (yar_string s) = true) /\
  (forall p native n, yar_is_truthy (yar_function p native n) = true) /\
  yar_is_truthy (yar_number 0%float) = true /\
  yar_is_truthy (yar_string EmptyString) = true.
Proof.
  split; [|repeat split].
  intros v. unfold yar_is_truthy, yar_is_nil, yar_is_bool.
  repeat split.
  - intros ->. reflexivity.
  - intros ->. reflexivity.
  - intros Hn Hb.
    apply Z.eqb_neq in Hn, Hb. now rewrite Hn, Hb.
Qed.

Lemma truthiness_rule_witness :
  type (yar_number 0%float) <> VAL_NIL /\
  type (yar_number 0%float) <> VAL_BOOL /\
  yar_is_truthy (yar_number 0%float) = true.
Proof.
  split; [discriminate|]. split; [discriminate|].
  apply (proj1 truthiness_rule (yar_number 0%float)); discriminate.
Defined.

(** ** Type names and predicates *)

(** C7. Each constructor yields a value whose type name is the fixed label
    of its variant, a tag outside the enumeration is named "unknown",
    [yar_type] returns a string value holding exactly the label, and of the
    five predicates exactly the one of the variant holds. *)
Theorem type_name_of_constructed :
  (yar_type_name yar_nil = "nil" /\
   (forall b, yar_type_name (yar_bool b) = "bool") /\
   (forall d, yar_type_name (yar_number d) = "number") /\
   (forall s, yar_type_name (yar_string s) = "string") /\
   (forall p native n, yar_type_name (yar_function p native n) = "function")) /\
  (forall v, (type v < VAL_NIL \/ VAL_FUNCTION < type v) -> yar_type_name v = "unknown") /\
  (forall v, In (yar_type_name v) ["nil"; "bool"; "number"; "string"; "function"; "unknown"]) /\
  (forall v, type (yar_type v) = VAL_STRING /\ as_string (yar_type v) = yar_type_name v) /\
  (predicates yar_nil = [true; false; false; false; false] /\
   (forall b, predicates (yar_bool b) = [false; true; false; false; false]) /\
   (forall d, predicates (yar_number d) = [false; false; true; false; false]) /\
   (forall s, predicates (yar_string s) = [false; false; false; true; false]) /\
   (forall p native n,
       predicates (yar_function p native n) = [false; false; false; false; true])).
Proof.
  split; [repeat split|].
  split.
  { intros v H. unfold yar_type_name, VAL_NIL, VAL_FUNCTION in *.
    destruct (type v) as [|p|p]; [lia| |reflexivity].
    repeat (destruct p as [p|p|]; try reflexivity; try lia). }
  split; [exact type_name_label|].
  split; [|repeat split].
  intros v. split; [reflexivity|].
  unfold yar_type, yar_string, as_string, strcpy. simpl.
  apply type_name_nul_free.
Qed.

Lemma type_name_of_constructed_witness :
  VAL_FUNCTION < type (mkValue 7 as_unset) /\
  yar_type_name (mkValue 7 as_unset) = "unknown".
Proof.
  split; [reflexivity|].
  apply (proj1 (proj2 type_name_of_constructed)). right. reflexivity.
Defined.

(** ** IEEE comparison of doubles *)

Section DoubleFacts.

Lemma SFcompare_antisym (a b : spec_float) :
  SFcompare a b = option_map CompOpp (SFcompare b a).
Proof.
  destruct a as [sa|sa| |sa ma ea], b as [sb|sb| |sb mb eb];
    try reflexivity; try (destruct sa; reflexivity);
    try (destruct sb; reflexivity);
    try (destruct sa, sb; reflexivity).
  simpl. f_equal. destruct sa, sb; try reflexivity;
    rewrite (Z.compare_antisym ea eb);
    destruct (ea ?= eb); simpl; try reflexivity;
    rewrite (Pos.compare_cont_antisym mb ma Eq); simpl;
    now rewrite ?CompOpp_involutive.
Qed.

Lemma SFeqb_sym (a b : spec_float) : SFeqb a b = SFeqb b a.
Proof.
  unfold SFeqb. rewrite SFcompare_antisym.
  destruct (SFcompare b a) as [[]|]; reflexivity.
Qed.

Lemma SFeqb_refl (a : spec_float) : a <> S754_nan -> SFeqb a a = true.
Proof.
  intros H. unfold SFeqb.
  destruct a as [s|s| |s m e]; try reflexivity; try (destruct s; reflexivity).
  - contradiction.
  - simpl. rewrite Z.compare_refl, Pos.compare_cont_refl.
    destruct s; reflexivity.
Qed.

Lemma SFeqb_nan_l (b : spec_float) : SFeqb S754_nan b = false.
Proof. reflexivity. Qed.

(** [x == y] is symmetric. *)
Lemma double_eqb_sym (x y : float) : PrimFloat.eqb x y = PrimFloat.eqb y x.
Proof. rewrite !FloatAxioms.eqb_spec. apply SFeqb_sym. Qed.

(** [x == x] holds for every double but NaN. *)
Lemma double_eqb_refl (x : float) :
  Prim2SF x <> S754_nan -> PrimFloat.eqb x x = true.
Proof. intros H. rewrite FloatAxioms.eqb_spec. now apply SFeqb_refl. Qed.

(** NaN compares unequal to every double. *)
Lemma double_eqb_nan (x y : float) :
  Prim2SF x = S754_nan -> PrimFloat.eqb x y = false.
Proof. intros H. rewrite FloatAxioms.eqb_spec, H. reflexivity. Qed.

(** [y == 0] holds exactly for the two zeros. *)
Lemma double_eqb_zero (y : float) :
  PrimFloat.eqb y PrimFloat.zero = true <-> exists s, Prim2SF y = S754_zero s.
Proof.
  rewrite FloatAxioms.eqb_spec.
  replace (Prim2SF PrimFloat.zero) with (S754_zero false) by reflexivity.
  destruct (Prim2SF y) as [s|s| |s m e]; simpl.
  - split; [eauto|reflexivity].
  - split; [destruct s; discriminate|intros [? ?]; discriminate].
  - split; [discriminate|intros [? ?]; discriminate].
  - split; [destruct s; discriminate|intros [? ?]; discriminate].
Qed.

End DoubleFacts.

(** ** Reading back what a constructor wrote *)

Lemma as_boolean_bool (b : bool) : as_boolean (yar_bool b) = b.
Proof. reflexivity. Qed.

Lemma as_number_number (d : float) : as_number (yar_number d) = d.
Proof. reflexivity. Qed.

Lemma as_string_string (s : string) : as_string (yar_string s) = c_str s.
Proof. reflexivity. Qed.

Create Rewrite HintDb yar.
#[local] Hint Rewrite as_boolean_bool as_number_number as_string_string : yar.

(** ** Equality *)

(** [yar_eq] always returns a boolean value. *)
Lemma yar_eq_is_bool (a b : Value) : exists e, yar_eq a b = yar_bool e.
Proof.
  unfold yar_eq. destruct (negb (type a =? type b)); [eauto|].
  switch_tag (type a); eauto.
Qed.

Lemma yar_eq_sym (a b : Value) : yar_eq a b = yar_eq b a.
Proof.
  unfold yar_eq. rewrite (Z.eqb_sym (type b) (type a)).
  destruct (type a =? type b) eqn:E; simpl; [|reflexivity].
  apply Z.eqb_eq in E. rewrite <- E.
  assert (Hs : (strcmp (as_string a) (as_string b) =? 0)
               = (strcmp (as_string b) (as_string a) =? 0)).
  { rewrite !strcmp_eqb. apply String.eqb_sym. }
  assert (Hb : Bool.eqb (as_boolean a) (as_boolean b)
               = Bool.eqb (as_boolean b) (as_boolean a)).
  { destruct (as_boolean a), (as_boolean b); reflexivity. }
  rewrite Hs, Hb, (double_eqb_sym (as_number a) (as_number b)).
  reflexivity.
Qed.

(** C2. [yar_eq] answers false, without any error, when the tags differ;
    on equal tags nil equals nil, booleans compare by payload, numbers by
    the IEEE [==] (a NaN equals nothing, itself included), strings by
    content, and two functions are unequal, also a function and itself. *)
Theorem eq_by_variant :
  (forall a b, type a <> type b -> yar_eq a b = yar_bool false) /\
  yar_eq yar_nil yar_nil = yar_bool true /\
  (forall x y, yar_eq (yar_bool x) (yar_bool y) = yar_bool (Bool.eqb x y)) /\
  (forall x y,
      yar_eq (yar_number x) (yar_number y)
      = yar_bool (SFeqb (Prim2SF x) (Prim2SF y))) /\
  (forall x y, Prim2SF x = S754_nan ->
      yar_eq (yar_number x) (yar_number y) = yar_bool false /\
      yar_eq (yar_number y) (yar_number x) = yar_bool false) /\
  yar_eq (yar_number nan) (yar_number nan) = yar_bool false /\
  (forall s t,
      yar_eq (yar_string s) (yar_string t)
      = yar_bool (String.eqb (as_string (yar_string s)) (as_string (yar_string t)))) /\
  (forall p native n q native' n',
      yar_eq (yar_function p native n) (yar_function q native' n') = yar_bool false) /\
  (forall f, type f = VAL_FUNCTION -> yar_eq f f = yar_bool false).
Proof.
  repeat apply conj.
  - intros a b H. unfold yar_eq. apply Z.eqb_neq in H. now rewrite H.
  - reflexivity.
  - reflexivity.
  - intros x y. unfold yar_eq. simpl. now rewrite FloatAxioms.eqb_spec.
  - intros x y H. unfold yar_eq. simpl. autorewrite with yar.
    rewrite (double_eqb_sym y x). now rewrite (double_eqb_nan x y).
  - reflexivity.
  - intros s t. unfold yar_eq. simpl. autorewrite with yar.
    now rewrite strcmp_eqb, !c_str_idem.
  - reflexivity.
  - intros f H. unfold yar_eq. rewrite Z.eqb_refl, H. reflexivity.
Qed.

Lemma eq_by_variant_witness :
  type (yar_number 1%float) <> type (yar_string "1") /\
  yar_eq (yar_number 1%float) (yar_string "1") = yar_bool false.
Proof.
  split; [discriminate|].
  apply (proj1 eq_by_variant). discriminate.
Defined.

(** ** The fatal-error channel *)

Section ErrorChannel.

Lemma append_assoc (a b c : string) : (a ++ b) ++ c = a ++ b ++ c.
Proof. induction a as [|x a IH]; simpl; [reflexivity|now rewrite IH]. Qed.

Lemma append_nil_r (a : string) : a ++ EmptyString = a.
Proof. induction a as [|x a IH]; simpl; [reflexivity|now rewrite IH]. Qed.

(** [yar_error] never returns: it writes the prefixed line and exits
    with status 1. *)
Lemma yar_error_exits {A} (fmt : string) (args : list Arg) (text : string)
      (k : Run A) (w : World) :
  format fmt args = Some text ->
  (yar_error fmt args ;; k) w = fatal w text.
Proof.
  intros H. unfold yar_error, fprintf, bind, fatal, exit. simpl.
  rewrite H. simpl. now rewrite !append_assoc.
Qed.

End ErrorChannel.

(** ** Addition *)

Lemma format_add (a b : Value) :
  format "Cannot add %s and %s" (type_names a b)
  = Some ("Cannot add " ++ yar_type_name a ++ " and " ++ yar_type_name b).
Proof.
  unfold type_names. simpl.
  now rewrite !type_name_nul_free, append_nil_r.
Qed.



(** ** Division *)

(** C4. [yar_divide] of two numbers with a divisor that compares equal to
    zero (either zero) is the fatal error "Division by zero", exit status
    1 and no quotient; with any other divisor it is the number of the IEEE
    quotient. *)
Theorem divide_checks_zero_first :
  (forall x y w,
      PrimFloat.eqb y PrimFloat.zero = true ->
      yar_divide (yar_number x) (yar_number y) w = fatal w "Division by zero") /\
  (forall x y w,
      PrimFloat.eqb y PrimFloat.zero = false ->
      yar_divide (yar_number x) (yar_number y) w
      = Returned (yar_number (PrimFloat.div x y)) w) /\
  (forall x y w s,
      Prim2SF y = S754_zero s ->
      yar_divide (yar_number x) (yar_number y) w
      = Exited 1 (mkWorld (stdout w)
                    (stderr w ++ "Runtime error: Division by zero" ++ newline))) /\
  (forall x y w,
      (forall s, Prim2SF y <> S754_zero s) ->
      yar_divide (yar_number x) (yar_number y) w
      = Returned (yar_number (PrimFloat.div x y)) w) /\
  yar_divide (yar_number 10%float) (yar_number 0%float) w0
  = Exited 1 (mkWorld EmptyString ("Runtime error: Division by zero" ++ newline)).
Proof.
  assert (Hz : forall x y w, PrimFloat.eqb y PrimFloat.zero = true ->
            yar_divide (yar_number x) (yar_number y) w = fatal w "Division by zero").
  { intros x y w H. unfold yar_divide. simpl. autorewrite with yar. rewrite H.
    now apply yar_error_exits. }
  assert (Hnz : forall x y w, PrimFloat.eqb y PrimFloat.zero = false ->
            yar_divide (yar_number x) (yar_number y) w
            = Returned (yar_number (PrimFloat.div x y)) w).
  { intros x y w H. unfold yar_divide. simpl. autorewrite with yar. now rewrite H. }
  repeat apply conj; try assumption; try reflexivity.
  - intros x y w s H. rewrite Hz; [reflexivity|].
    apply double_eqb_zero. eauto.
  - intros x y w H. apply Hnz.
    destruct (PrimFloat.eqb y PrimFloat.zero) eqn:E; [|reflexivity].
    apply double_eqb_zero in E. destruct E as [s E]. now elim (H s).
Qed.

Lemma divide_checks_zero_first_witness :
  yar_divide (yar_number 1%float) (yar_number neg_zero) w0 = fatal w0 "Division by zero"
  /\ yar_divide (yar_number 1%float) (yar_number 4%float) w0
     = Returned (yar_number 0.25%float) w0.
Proof.
  split.
  - apply (proj1 divide_checks_zero_first). reflexivity.
  - apply (proj1 (proj2 divide_checks_zero_first) 1%float 4%float). reflexivity.
Defined.

(** ** Integers as doubles *)

Section IntegerConversion.

Lemma digits2_size (p : positive) : digits2_pos p = Pos.size p.
Proof. induction p as [p IH|p IH|]; simpl; congruence. Qed.

Lemma iter_xO_value (p k : positive) :
  Zpos (Pos.iter xO p k) = Zpos p * 2 ^ Zpos k.
Proof.
  induction k as [|k IH] using Pos.peano_ind.
  - simpl. lia.
  - rewrite Pos.iter_succ, Pos2Z.inj_succ, Z.pow_succ_r by lia.
    rewrite Pos2Z.inj_xO, IH. lia.
Qed.

Lemma iter_xO_size (p k : positive) :
  Pos.size (Pos.iter xO p k) = (Pos.size p + k)%positive.
Proof.
  induction k as [|k IH] using Pos.peano_ind.
  - simpl. lia.
  - rewrite Pos.iter_succ. simpl. rewrite IH. lia.
Qed.

Lemma size_bound (p : positive) : Zpos p < 2 ^ 53 -> Zpos (Pos.size p) <= 53.
Proof.
  intros H. pose proof (Pos.size_le p) as Hs.
  assert (Hz : 2 ^ Zpos (Pos.size p) <= 2 * Zpos p).
  { change (2 * Zpos p) with (Zpos p~0). rewrite <- Pos2Z.inj_pow. apply Pos2Z.pos_le_pos. exact Hs. }
  destruct (Z_le_gt_dec (Zpos (Pos.size p)) 53) as [L|G]; [exact L|exfalso].
  assert (2 ^ 54 <= 2 ^ Zpos (Pos.size p)) by (apply Z.pow_le_mono_r; lia).
  lia.
Qed.

Lemma shr_fexp_canonical (m : positive) (e : Z) :
  canonical_mantissa prec emax m e = true ->
  shr_fexp prec emax (Zpos m) e loc_Exact
  = (Build_shr_record (Zpos m) false false, e).
Proof.
  intros Hc. unfold canonical_mantissa in Hc. apply Z.eqb_eq in Hc.
  unfold shr_fexp. simpl Zdigits2. rewrite Hc, Z.sub_diag. reflexivity.
Qed.

Lemma binary_round_aux_canonical (s : bool) (m : positive) (e : Z) :
  canonical_mantissa prec emax m e = true ->
  e <= emax - prec ->
  binary_round_aux prec emax s (Zpos m) e loc_Exact = S754_finite s m e.
Proof.
  intros Hc He. unfold binary_round_aux.
  rewrite (shr_fexp_canonical m e Hc).
  change (round_nearest_even (shr_m (Build_shr_record (Zpos m) false false))
            (loc_of_shr_record (Build_shr_record (Zpos m) false false)))
    with (Zpos m).
  rewrite (shr_fexp_canonical m e Hc).
  change (shr_m (Build_shr_record (Zpos m) false false)) with (Zpos m).
  apply Z.leb_le in He. now rewrite He.
Qed.

(** An integer below 2^53 in magnitude is a double. *)
Lemma binary_round_small (s : bool) (p : positive) :
  Zpos p < 2 ^ 53 ->
  exists m e,
    binary_round prec emax s p 0 = S754_finite s m e /\
    valid_binary (S754_finite s m e) = true /\
    e <= 0 /\ Zpos m = Zpos p * 2 ^ (- e).
Proof.
  intros Hp. pose proof (size_bound p Hp) as Hd.
  assert (H1 : 1 <= Zpos (Pos.size p)) by lia.
  unfold binary_round. rewrite digits2_size, Z.add_0_r.
  assert (Hf : fexp prec emax (Zpos (Pos.size p)) = Zpos (Pos.size p) - 53).
  { unfold fexp, SpecFloat.emin, prec, emax. lia. }
  rewrite Hf. unfold shl_align. rewrite Z.sub_0_r.
  destruct (Zpos (Pos.size p) - 53) as [|k|k] eqn:Ek; [|lia|].
  - exists p, 0. split.
    + apply binary_round_aux_canonical.
      * unfold canonical_mantissa. rewrite digits2_size, Z.add_0_r, Hf. reflexivity.
      * unfold prec, emax. lia.
    + split; [|split; [lia|simpl; lia]].
      unfold SpecFloat.valid_binary, bounded, canonical_mantissa.
      rewrite digits2_size, Z.add_0_r, Hf. reflexivity.
  - assert (Hc : canonical_mantissa prec emax (Pos.iter xO p k) (Zneg k) = true).
    { unfold canonical_mantissa. rewrite digits2_size, iter_xO_size.
      apply Z.eqb_eq. unfold fexp, SpecFloat.emin, prec, emax. lia. }
    exists (Pos.iter xO p k), (Zneg k). split.
    + apply binary_round_aux_canonical; [exact Hc|]. unfold prec, emax. lia.
    + split; [|split; [lia|]].
      * unfold SpecFloat.valid_binary, bounded. rewrite Hc. reflexivity.
      * rewrite iter_xO_value. reflexivity.
Qed.

(** The conversion of an integer below 2^53 in magnitude is exact. *)
Lemma double_of_Z_exact (n : Z) : Z.abs n < 2 ^ 53 -> represents (double_of_Z n) n.
Proof.
  intros H. unfold represents, double_of_Z, binary_normalize.
  destruct n as [|p|p].
  - reflexivity.
  - destruct (binary_round_small false p H) as (m & e & Hr & Hv & He & Hm).
    rewrite Hr, (Prim2SF_SF2Prim _ Hv). cbv zeta.
    destruct (0 <=? e) eqn:E.
    + apply Z.leb_le in E. assert (e = 0) by lia. subst e. simpl in Hm. lia.
    + symmetry. exact Hm.
  - destruct (binary_round_small true p H) as (m & e & Hr & Hv & He & Hm).
    rewrite Hr, (Prim2SF_SF2Prim _ Hv). cbv zeta.
    destruct (0 <=? e) eqn:E.
    + apply Z.leb_le in E. assert (e = 0) by lia. subst e. simpl in Hm. lia.
    + rewrite <- (Pos2Z.opp_pos m), <- (Pos2Z.opp_pos p), Hm. ring.
Qed.

End IntegerConversion.

(** ** Length *)

Lemma format_len (v : Value) :
  format "len() requires string, got %s" [arg_str (yar_type_name v)]
  = Some ("len() requires string, got " ++ yar_type_name v).
Proof. simpl. now rewrite type_name_nul_free, append_nil_r. Qed.



(** ** Equality as a relation *)

(** C8. [yar_eq] is reflexive on nil, booleans, strings and every number
    but NaN, which is unequal to itself; it is symmetric on all values; two
    function values are unequal whatever they refer to; and [yar_neq] is
    the boolean negation of [yar_eq]. *)
Theorem eq_reflexive_symmetric :
  (yar_eq yar_nil yar_nil = yar_bool true /\
   (forall b, yar_eq (yar_bool b) (yar_bool b) = yar_bool true) /\
   (forall s, yar_eq (yar_string s) (yar_string s) = yar_bool true) /\
   (forall d, Prim2SF d <> S754_nan ->
              yar_eq (yar_number d) (yar_number d) = yar_bool true)) /\
  (forall d, Prim2SF d = S754_nan ->
             yar_eq (yar_number d) (yar_number d) = yar_bool false) /\
  (forall a b, yar_eq a b = yar_eq b a) /\
  (forall f g, type f = VAL_FUNCTION -> type g = VAL_FUNCTION ->
               yar_eq f g = yar_bool false) /\
  (forall a b, exists e, yar_eq a b = yar_bool e /\ yar_neq a b = yar_bool (negb e)).
Proof.
  repeat apply conj.
  - reflexivity.
  - intros b. unfold yar_eq. simpl. autorewrite with yar. now destruct b.
  - intros s. unfold yar_eq. simpl. now rewrite strcmp_eqb, String.eqb_refl.
  - intros d H. unfold yar_eq. simpl. autorewrite with yar.
    now rewrite double_eqb_refl.
  - intros d H. unfold yar_eq. simpl. autorewrite with yar.
    now rewrite (double_eqb_nan d d).
  - exact yar_eq_sym.
  - intros f g Hf Hg. unfold yar_eq. rewrite Hf, Hg. reflexivity.
  - intros a b. destruct (yar_eq_is_bool a b) as [e He].
    exists e. split; [exact He|]. unfold yar_neq. now rewrite He.
Qed.

Lemma eq_reflexive_symmetric_witness :
  Prim2SF 1.5%float <> S754_nan /\
  yar_eq (yar_number 1.5%float) (yar_number 1.5%float) = yar_bool true.
Proof.
  assert (H : Prim2SF 1.5%float <> S754_nan) by (vm_compute; discriminate).
  split; [exact H|].
  apply (proj2 (proj2 (proj2 (proj1 eq_reflexive_symmetric)))). exact H.
Defined.

(** ** Remainder *)

#[local] Set Warnings "-inexact-float".

Lemma format_modulo (a b : Value) :
  format "Cannot modulo %s and %s" (type_names a b)
  = Some ("Cannot modulo " ++ yar_type_name a ++ " and " ++ yar_type_name b).
Proof.
  unfold type_names. simpl.
  now rewrite !type_name_nul_free, append_nil_r.
Qed.

(** The integral part is the truncation toward zero of [+/- m * 2 ^ e]. *)
Lemma integral_part_truncates (s : bool) (m : positive) (e z : Z) :
  integral_part (S754_finite s m e) = Some z ->
  exists t, z = (if s then - t else t) /\ 0 <= t /\
            (0 <= e -> t = Zpos m * 2 ^ e) /\
            (e < 0 -> t * 2 ^ (- e) <= Zpos m < (t + 1) * 2 ^ (- e)).
Proof.
  simpl. intros H. injection H as H.
  destruct (0 <=? e) eqn:E.
  - apply Z.leb_le in E. exists (Zpos m * 2 ^ e).
    split; [now symmetry|]. split; [|split; [reflexivity|lia]].
    apply Z.mul_nonneg_nonneg; [lia|]. now apply Z.pow_nonneg.
  - apply Z.leb_gt in E. exists (Zpos m / 2 ^ (- e)).
    assert (Hp : 0 < 2 ^ (- e)) by (apply Z.pow_pos_nonneg; lia).
    split; [now symmetry|]. split; [|split; [lia|]].
    + apply Z.div_pos; lia.
    + intros _. split.
      * rewrite Z.mul_comm. now apply Z.mul_div_le.
      * rewrite Z.mul_comm. now apply Z.mul_succ_div_gt.
Qed.

Lemma long_of_double_range (x : float) (a : Z) :
  long_of_double x = Some a ->
  integral_part (Prim2SF x) = Some a /\ LONG_MIN <= a <= LONG_MAX.
Proof.
  unfold long_of_double. destruct (integral_part (Prim2SF x)) as [z|]; [|discriminate].
  destruct (in_long z) eqn:E; [|discriminate].
  intros H. injection H as <-. split; [reflexivity|].
  unfold in_long in E. apply andb_prop in E. destruct E as [E1 E2].
  apply Z.leb_le in E1, E2. lia.
Qed.

(** C5, as the code has it. For two numbers whose integral parts fit a
    [long], the second not zero and the pair not [(LONG_MIN, -1)],
    [yar_modulo] is the number converted from the remainder of the two
    integral parts (truncating division: the sign follows the dividend),
    exactly so below 2^53; an integral part is the operand truncated toward
    zero; operands that are not both numbers are a fatal error. *)
Theorem modulo_truncates_in_long_range :
  (forall x y a b w,
      long_of_double x = Some a ->
      long_of_double y = Some b ->
      b <> 0 ->
      (a <> LONG_MIN \/ b <> -1) ->
      yar_modulo (yar_number x) (yar_number y) w
      = Returned (yar_number (double_of_Z (Z.rem a b))) w) /\
  (forall x a,
      long_of_double x = Some a ->
      match Prim2SF x with
      | S754_zero _ => a = 0
      | S754_finite s m e =>
          exists t, a = (if s then - t else t) /\ 0 <= t /\
                    (0 <= e -> t = Zpos m * 2 ^ e) /\
                    (e < 0 -> t * 2 ^ (- e) <= Zpos m < (t + 1) * 2 ^ (- e))
      | _ => False
      end) /\
  (forall r, Z.abs r < 2 ^ 53 -> represents (double_of_Z r) r) /\
  (forall a b w,
      yar_is_number a && yar_is_number b = false ->
      yar_modulo a b w
      = fatal w ("Cannot modulo " ++ yar_type_name a ++ " and " ++ yar_type_name b)) /\
  long_of_double 7.9%float = Some 7 /\
  long_of_double 2.5%float = Some 2 /\
  yar_modulo (yar_number 7.9%float) (yar_number 2.5%float) w0
  = Returned (yar_number 1%float) w0.
Proof.
  repeat apply conj; try reflexivity.
  - intros x y a b w Hx Hy Hb Hab. unfold yar_modulo. simpl.
    autorewrite with yar. unfold bind. rewrite Hx. simpl. rewrite Hy. simpl.
    unfold long_rem. apply Z.eqb_neq in Hb. rewrite Hb.
    assert (Hm : (a =? LONG_MIN) && (b =? -1) = false).
    { apply andb_false_iff. destruct Hab as [H|H]; [left|right]; now apply Z.eqb_neq. }
    now rewrite Hm.
  - intros x a H. apply long_of_double_range in H. destruct H as [H _].
    destruct (Prim2SF x) as [s|s| |s m e]; try discriminate.
    + simpl in H. congruence.
    + now apply integral_part_truncates.
  - exact double_of_Z_exact.
  - intros a b w H. unfold yar_modulo. rewrite H.
    apply yar_error_exits, format_modulo.
Qed.

Lemma modulo_truncates_in_long_range_witness :
  yar_modulo (yar_number (-7.5)%float) (yar_number 2%float) w0
  = Returned (yar_number (double_of_Z (Z.rem (-7) 2))) w0.
Proof.
  apply (proj1 modulo_truncates_in_long_range (-7.5)%float 2%float (-7) 2 w0).
  - reflexivity.
  - reflexivity.
  - discriminate.
  - right. discriminate.
Defined.

(** C5 as stated fails: 1e19 and 3 are numbers with integral parts 10^19
    and 3, whose remainder is 1, but 10^19 is no [long] and the conversion
    has no defined result; nor has the remainder a defined result for
    [LONG_MIN] and -1, or for a divisor with integral part 0. *)
Lemma modulo_undefined_beyond_long :
  ~ (forall x y a b w,
        integral_part (Prim2SF x) = Some a ->
        integral_part (Prim2SF y) = Some b ->
        b <> 0 ->
        yar_modulo (yar_number x) (yar_number y) w
        = Returned (yar_number (double_of_Z (Z.rem a b))) w) /\
  yar_modulo (yar_number 1e19%float) (yar_number 3%float) w0 = Undefined /\
  yar_modulo (yar_number (-9223372036854775808)%float) (yar_number (-1)%float) w0
  = Undefined /\
  yar_modulo (yar_number 7%float) (yar_number 0%float) w0 = Undefined.
Proof.
  assert (E : yar_modulo (yar_number 1e19%float) (yar_number 3%float) w0 = Undefined)
    by reflexivity.
  repeat apply conj; try reflexivity.
  intros H.
  specialize (H 1e19%float 3%float (10 ^ 19) 3 w0).
  rewrite E in H.
  assert (Hc : @Undefined Value
               = Returned (yar_number (double_of_Z (Z.rem (10 ^ 19) 3))) w0).
  { apply H; [reflexivity|reflexivity|discriminate]. }
  discriminate Hc.
Qed.

(** C10. [yar_modulo] has no test of the divisor: when the divisor's
    integral part is zero the remainder of a division by zero is evaluated,
    which has no defined result, and no "Division by zero" error is
    raised, unlike [yar_divide] on a zero divisor. *)
Theorem modulo_zero_divisor_unguarded :
  (forall x y w,
      long_of_double y = Some 0 ->
      yar_modulo (yar_number x) (yar_number y) w = Undefined /\
      yar_modulo (yar_number x) (yar_number y) w <> fatal w "Division by zero") /\
  (forall a, long_rem a 0 = None) /\
  yar_modulo (yar_number 7%float) (yar_number 0%float) w0 = Undefined /\
  yar_modulo (yar_number 7%float) (yar_number 0.5%float) w0 = Undefined /\
  yar_divide (yar_number 7%float) (yar_number 0%float) w0 = fatal w0 "Division by zero".
Proof.
  repeat apply conj; try reflexivity.
  intros x y w Hy.
  assert (E : yar_modulo (yar_number x) (yar_number y) w = Undefined).
  { unfold yar_modulo. simpl. autorewrite with yar. unfold bind.
    destruct (long_of_double x) as [a|]; simpl; [|reflexivity].
    rewrite Hy. reflexivity. }
  split; [exact E|]. rewrite E. discriminate.
Qed.

Lemma modulo_zero_divisor_unguarded_witness :
  long_of_double (-0.25)%float = Some 0 /\
  yar_modulo (yar_number 3%float) (yar_number (-0.25)%float) w0 = Undefined.
Proof.
  split; [reflexivity|].
  apply (proj1 modulo_zero_divisor_unguarded 3%float (-0.25)%float w0). reflexivity.
Defined.

(** ** Printing *)

Lemma print_returns (v : Value) (w : World) :
  exists s, yar_print v w = printed w s.
Proof.
  unfold yar_print, printf, fprintf, bind, printed.
  destruct (type v) as [|p|p].
  - exists "nil". reflexivity.
  - assert (Hnone : exists s, ret tt w = Returned tt (mkWorld (stdout w ++ s) (stderr w))).
    { exists EmptyString. unfold ret. rewrite append_nil_r. now destruct w. }
    destruct p as [[[p|p|]|[p|p|]|]|[[p|p|]|[p|p|]|]|]; try exact Hnone; simpl.
    + exists (c_str (as_string v) ++ EmptyString). reflexivity.
    + exists "<function>". reflexivity.
    + exists (fmt_g (as_number v) ++ EmptyString). reflexivity.
    + exists (c_str (if as_boolean v then "true" else "false") ++ EmptyString). reflexivity.
  - exists EmptyString. unfold ret. rewrite append_nil_r. now destruct w.
Qed.

(** C9, as the code has it. [yar_print] writes "nil" for nil, "true" or
    "false" for a boolean, the [%g] conversion of a number that is not a
    NaN (six significant digits at most), the content of a string and
    "<function>" for a function; [yar_println] writes the same text and
    then a newline. *)
Theorem print_text_forms :
  (forall w, yar_print yar_nil w = printed w "nil") /\
  (forall b w, yar_print (yar_bool b) w = printed w (if b then "true" else "false")) /\
  (forall d w, Prim2SF d <> S754_nan ->
               yar_print (yar_number d) w = printed w (fmt_g d)) /\
  (forall s w, yar_print (yar_string s) w = printed w (as_string (yar_string s))) /\
  (forall p native n w, yar_print (yar_function p native n) w = printed w "<function>") /\
  (forall v w, exists s,
      yar_print v w = printed w s /\ yar_println v w = printed w (s ++ newline)) /\
  (fmt_g 0.5%float = "0.5" /\ fmt_g 100%float = "100" /\
   fmt_g 1234567%float = "1.23457e+06" /\ fmt_g 0.00001%float = "1e-05" /\
   fmt_g 0.1%float = "0.1" /\ fmt_g (1 / 3)%float = "0.333333").
Proof.
  repeat apply conj; try reflexivity.
  - intros b w. unfold yar_print, printf, fprintf, bind, printed. simpl.
    autorewrite with yar. destruct b; reflexivity.
  - intros d w _. unfold yar_print, printf, fprintf, bind, printed. simpl.
    autorewrite with yar. now rewrite append_nil_r.
  - intros s w. unfold yar_print, printf, fprintf, bind, printed. simpl.
    autorewrite with yar. now rewrite c_str_idem, append_nil_r.
  - intros v w. destruct (print_returns v w) as [s Hs]. exists s.
    split; [exact Hs|].
    unfold yar_println, bind. rewrite Hs.
    unfold printed, printf, fprintf, bind, newline. simpl.
    now rewrite append_assoc.
Qed.

Lemma print_text_forms_witness :
  Prim2SF 0.5%float <> S754_nan /\
  yar_print (yar_number 0.5%float) w0 = printed w0 (fmt_g 0.5%float).
Proof.
  assert (H : Prim2SF 0.5%float <> S754_nan) by (vm_compute; discriminate).
  split; [exact H|].
  apply (proj1 (proj2 (proj2 print_text_forms)) 0.5%float w0 H).
Defined.

(** C9 as stated fails: no reading of the printed text gives back every
    number, since 1234567 and 1234570 are printed alike. *)
Lemma print_number_not_round_trip :
  ~ (exists read : string -> float,
        forall d w, exists s,
            yar_print (yar_number d) w = printed w s /\ read s = d).
Proof.
  intros [read H].
  destruct (H 1234567%float w0) as [s1 [E1 R1]].
  destruct (H 1234570%float w0) as [s2 [E2 R2]].
  assert (P1 : yar_print (yar_number 1234567%float) w0 = printed w0 "1.23457e+06")
    by reflexivity.
  assert (P2 : yar_print (yar_number 1234570%float) w0 = printed w0 "1.23457e+06")
    by reflexivity.
  rewrite P1 in E1. rewrite P2 in E2.
  unfold printed in E1, E2. simpl in E1, E2.
  injection E1 as E1. injection E2 as E2.
  rewrite <- E1 in R1. rewrite <- E2 in R2.
  assert (Heq : 1234567%float = 1234570%float) by congruence.
  apply (f_equal Prim2SF) in Heq. vm_compute in Heq. discriminate Heq.
Qed.

(** * Further properties of the runtime *)

(** ** IEEE arithmetic of doubles *)

Section DoubleArithmetic.

Lemma SFadd_comm (x y : spec_float) : SFadd prec emax x y = SFadd prec emax y x.
Proof.
  destruct x as [sx|sx| |sx mx ex], y as [sy|sy| |sy my ey];
    try reflexivity; try (destruct sx, sy; reflexivity).
  unfold SFadd. now rewrite (Z.min_comm ey ex), Z.add_comm.
Qed.

Lemma SFmul_comm (x y : spec_float) : SFmul prec emax x y = SFmul prec emax y x.
Proof.
  destruct x as [sx|sx| |sx mx ex], y as [sy|sy| |sy my ey];
    try reflexivity; try (destruct sx, sy; reflexivity).
  unfold SFmul. now rewrite (Pos.mul_comm my mx), (Z.add_comm ey ex), (xorb_comm sy sx).
Qed.

Lemma SFsub_add_opp (x y : spec_float) :
  SFsub prec emax x y = SFadd prec emax x (SFopp y).
Proof.
  destruct x as [sx|sx| |sx mx ex], y as [sy|sy| |sy my ey];
    try reflexivity; destruct sx, sy; reflexivity.
Qed.

Lemma SFopp_involutive (x : spec_float) : SFopp (SFopp x) = x.
Proof. destruct x as [s|s| |s m e]; simpl; now rewrite ?negb_involutive. Qed.

Lemma double_add_comm (x y : float) : PrimFloat.add x y = PrimFloat.add y x.
Proof. apply Prim2SF_inj. rewrite !add_spec. apply SFadd_comm. Qed.

Lemma double_mul_comm (x y : float) : PrimFloat.mul x y = PrimFloat.mul y x.
Proof. apply Prim2SF_inj. rewrite !mul_spec. apply SFmul_comm. Qed.

Lemma double_sub_add_opp (x y : float) :
  PrimFloat.sub x y = PrimFloat.add x (PrimFloat.opp y).
Proof. apply Prim2SF_inj. rewrite sub_spec, add_spec, opp_spec. apply SFsub_add_opp. Qed.

Lemma double_opp_involutive (x : float) : PrimFloat.opp (PrimFloat.opp x) = x.
Proof. apply Prim2SF_inj. rewrite !opp_spec. apply SFopp_involutive. Qed.

Lemma SFcompare_nan_iff (a b : spec_float) :
  SFcompare a b = None <-> a = S754_nan \/ b = S754_nan.
Proof.
  destruct a as [sa|sa| |sa ma ea], b as [sb|sb| |sb mb eb]; simpl;
    split; intros H; try discriminate; try tauto;
    try (destruct H as [H|H]; discriminate).
Qed.

End DoubleArithmetic.

(** ** Arithmetic operators *)

Ltac format_names :=
  unfold type_names; simpl; now rewrite !type_name_nul_free, append_nil_r.

Lemma format_subtract (a b : Value) :
  format "Cannot subtract %s and %s" (type_names a b)
  = Some ("Cannot subtract " ++ yar_type_name a ++ " and " ++ yar_type_name b).
Proof. format_names. Qed.

Lemma format_multiply (a b : Value) :
  format "Cannot multiply %s and %s" (type_names a b)
  = Some ("Cannot multiply " ++ yar_type_name a ++ " and " ++ yar_type_name b).
Proof. format_names. Qed.

Lemma format_divide (a b : Value) :
  format "Cannot divide %s and %s" (type_names a b)
  = Some ("Cannot divide " ++ yar_type_name a ++ " and " ++ yar_type_name b).
Proof. format_names. Qed.

Lemma format_compare (a b : Value) :
  format "Cannot compare %s and %s" (type_names a b)
  = Some ("Cannot compare " ++ yar_type_name a ++ " and " ++ yar_type_name b).
Proof. format_names. Qed.

Lemma format_negate (v : Value) :
  format "Cannot negate %s" [arg_str (yar_type_name v)]
  = Some ("Cannot negate " ++ yar_type_name v).
Proof. simpl. now rewrite type_name_nul_free, append_nil_r. Qed.

(** X1. [yar_subtract] has no string case: two numbers give the IEEE
    difference, which is the sum with the negated second operand; any
    other pair, two strings included, is a fatal error naming both types. *)
Theorem subtract_numbers_only :
  (forall x y w,
      yar_subtract (yar_number x) (yar_number y) w
      = Returned (yar_number (PrimFloat.sub x y)) w) /\
  (forall x y w,
      yar_subtract (yar_number x) (yar_number y) w
      = (n <- yar_negate (yar_number y) ;; yar_add (yar_number x) n) w) /\
  (forall a b w,
      yar_is_number a && yar_is_number b = false ->
      yar_subtract a b w
      = fatal w ("Cannot subtract " ++ yar_type_name a ++ " and " ++ yar_type_name b)) /\
  (forall s t w,
      yar_subtract (yar_string s) (yar_string t) w
      = fatal w "Cannot subtract string and string").
Proof.
  assert (He : forall a b w,
             yar_is_number a && yar_is_number b = false ->
             yar_subtract a b w
             = fatal w ("Cannot subtract " ++ yar_type_name a ++ " and "
                        ++ yar_type_name b)).
  { intros a b w H. unfold yar_subtract. rewrite H.
    apply yar_error_exits, format_subtract. }
  repeat apply conj.
  - reflexivity.
  - intros x y w. unfold yar_subtract, yar_negate, yar_add, bind, ret. simpl.
    autorewrite with yar. now rewrite double_sub_add_opp.
  - exact He.
  - intros s t w. now rewrite He.
Qed.

Lemma subtract_numbers_only_witness :
  yar_subtract (yar_number 1%float) yar_nil w0
  = fatal w0 ("Cannot subtract " ++ yar_type_name (yar_number 1%float)
              ++ " and " ++ yar_type_name yar_nil).
Proof.
  apply (proj1 (proj2 (proj2 subtract_numbers_only))). reflexivity.
Defined.

(** X2. [yar_multiply] of two numbers is the IEEE product and does not
    depend on the order of the operands; any other pair is a fatal error
    naming both types in the order given. *)
Theorem multiply_numbers_only :
  (forall x y w,
      yar_multiply (yar_number x) (yar_number y) w
      = Returned (yar_number (PrimFloat.mul x y)) w) /\
  (forall x y w,
      yar_multiply (yar_number x) (yar_number y) w
      = yar_multiply (yar_number y) (yar_number x) w) /\
  (forall a b w,
      yar_is_number a && yar_is_number b = false ->
      yar_multiply a b w
      = fatal w ("Cannot multiply " ++ yar_type_name a ++ " and " ++ yar_type_name b)).
Proof.
  repeat apply conj.
  - reflexivity.
  - intros x y w. unfold yar_multiply. simpl. autorewrite with yar.
    now rewrite double_mul_comm.
  - intros a b w H. unfold yar_multiply. rewrite H.
    apply yar_error_exits, format_multiply.
Qed.

Lemma multiply_numbers_only_witness :
  yar_multiply (yar_string "ab") (yar_number 3%float) w0
  = fatal w0 ("Cannot multiply " ++ yar_type_name (yar_string "ab")
              ++ " and " ++ yar_type_name (yar_number 3%float)).
Proof.
  apply (proj2 (proj2 multiply_numbers_only)). reflexivity.
Defined.

(** X3. [yar_negate] of a number is its IEEE negation, and negating twice
    gives the number back (NaN and the zeros included); any other value is
    a fatal error naming its type. *)
Theorem negate_number_only :
  (forall x w,
      yar_negate (yar_number x) w = Returned (yar_number (PrimFloat.opp x)) w) /\
  (forall x w,
      (n <- yar_negate (yar_number x) ;; yar_negate n) w
      = Returned (yar_number x) w) /\
  (forall v w,
      yar_is_number v = false ->
      yar_negate v w = fatal w ("Cannot negate " ++ yar_type_name v)).
Proof.
  repeat apply conj.
  - reflexivity.
  - intros x w. unfold yar_negate, bind, ret, yar_is_number, as_number, yar_number.
    simpl. now rewrite double_opp_involutive.
  - intros v w H. unfold yar_negate. rewrite H.
    apply yar_error_exits, format_negate.
Qed.

Lemma negate_number_only_witness :
  yar_negate (yar_bool true) w0
  = fatal w0 ("Cannot negate " ++ yar_type_name (yar_bool true)).
Proof.
  apply (proj2 (proj2 negate_number_only)). reflexivity.
Defined.

(** X4. Addition of numbers does not depend on the order of the operands;
    addition of strings is associative and has the empty string as a
    neutral element on both sides. *)
Theorem add_algebra :
  (forall x y w,
      yar_add (yar_number x) (yar_number y) w
      = yar_add (yar_number y) (yar_number x) w) /\
  (forall s t u w,
      (st <- yar_add (yar_string s) (yar_string t) ;; yar_add st (yar_string u)) w
      = (tu <- yar_add (yar_string t) (yar_string u) ;; yar_add (yar_string s) tu) w) /\
  (forall s w,
      yar_add (yar_string s) (yar_string EmptyString) w = Returned (yar_string s) w /\
      yar_add (yar_string EmptyString) (yar_string s) w = Returned (yar_string s) w).
Proof.
  assert (Hs : forall s t w,
             yar_add (yar_string s) (yar_string t) w
             = Returned (yar_string (c_str s ++ c_str t)) w).
  { intros s t w. unfold yar_add, ret, yar_string, strcat, strcpy, as_string. simpl.
    rewrite !c_str_idem. do 3 f_equal. symmetry.
    apply c_str_fixed, nul_free_app; apply c_str_nul_free. }
  repeat apply conj.
  - intros x y w. unfold yar_add. simpl. autorewrite with yar.
    now rewrite double_add_comm.
  - intros s t u w. unfold bind. rewrite !Hs. cbv beta iota.
    assert (Hc : forall a b, c_str (c_str a ++ c_str b) = c_str a ++ c_str b).
    { intros a b. apply c_str_fixed, nul_free_app; apply c_str_nul_free. }
    now rewrite !Hc, append_assoc.
  - intros s w. rewrite !Hs. simpl. rewrite append_nil_r.
    unfold yar_string, strcpy. now rewrite c_str_idem.
Qed.

(** ** Comparison operators *)

Section ComparisonFacts.

Lemma SFleb_ltb_eqb (a b : spec_float) : SFleb a b = SFltb a b || SFeqb a b.
Proof. unfold SFleb, SFltb, SFeqb. destruct (SFcompare a b) as [[]|]; reflexivity. Qed.

Lemma SFltb_flip (a b : spec_float) :
  SFltb b a = match SFcompare a b with Some Gt => true | _ => false end.
Proof.
  unfold SFltb. rewrite (SFcompare_antisym b a).
  destruct (SFcompare a b) as [[]|]; reflexivity.
Qed.

Lemma double_leb_ltb_eqb (x y : float) :
  PrimFloat.leb x y = PrimFloat.ltb x y || PrimFloat.eqb x y.
Proof. rewrite leb_spec, ltb_spec, eqb_spec. apply SFleb_ltb_eqb. Qed.

Lemma compare_numbers_numbers (op : float -> float -> bool) (x y : float) (w : World) :
  compare_numbers op (yar_number x) (yar_number y) w = Returned (yar_bool (op x y)) w.
Proof. reflexivity. Qed.

Lemma compare_numbers_fatal (op : float -> float -> bool) (a b : Value) (w : World) :
  yar_is_number a && yar_is_number b = false ->
  compare_numbers op a b w
  = fatal w ("Cannot compare " ++ yar_type_name a ++ " and " ++ yar_type_name b).
Proof.
  intros H. unfold compare_numbers. rewrite H.
  apply yar_error_exits, format_compare.
Qed.

End ComparisonFacts.

(** X5. The four ordering operators accept two numbers only, and answer
    with the boolean of the IEEE comparison ([>] and [>=] being [<] and
    [<=] with the operands exchanged); on any other pair each of them is
    the same fatal error "Cannot compare", naming both types in the order
    given. *)
Theorem ordering_numbers_only :
  (forall x y w,
      yar_lt (yar_number x) (yar_number y) w
      = Returned (yar_bool (SFltb (Prim2SF x) (Prim2SF y))) w /\
      yar_lte (yar_number x) (yar_number y) w
      = Returned (yar_bool (SFleb (Prim2SF x) (Prim2SF y))) w /\
      yar_gt (yar_number x) (yar_number y) w
      = yar_lt (yar_number y) (yar_number x) w /\
      yar_gte (yar_number x) (yar_number y) w
      = yar_lte (yar_number y) (yar_number x) w) /\
  (forall op a b w,
      In op [yar_lt; yar_gt; yar_lte; yar_gte] ->
      yar_is_number a && yar_is_number b = false ->
      op a b w
      = fatal w ("Cannot compare " ++ yar_type_name a ++ " and " ++ yar_type_name b)).
Proof.
  split.
  - intros x y w. unfold yar_lt, yar_lte, yar_gt, yar_gte.
    rewrite !compare_numbers_numbers, ltb_spec, leb_spec. now repeat split.
  - intros op a b w Hop H.
    simpl in Hop. destruct Hop as [<-|[<-|[<-|[<-|[]]]]];
      now apply compare_numbers_fatal.
Qed.

Lemma ordering_numbers_only_witness :
  yar_gte (yar_string "a") (yar_string "b") w0
  = fatal w0 ("Cannot compare " ++ yar_type_name (yar_string "a")
              ++ " and " ++ yar_type_name (yar_string "b")).
Proof.
  apply (proj2 ordering_numbers_only yar_gte).
  - simpl. auto.
  - reflexivity.
Defined.

(** X6. A NaN operand makes every comparison of two numbers false: [<],
    [>], [<=], [>=] and [==] all answer false, and [!=] answers true. *)
Theorem nan_compares_false :
  forall x y w,
    Prim2SF x = S754_nan \/ Prim2SF y = S754_nan ->
    yar_lt (yar_number x) (yar_number y) w = Returned (yar_bool false) w /\
    yar_gt (yar_number x) (yar_number y) w = Returned (yar_bool false) w /\
    yar_lte (yar_number x) (yar_number y) w = Returned (yar_bool false) w /\
    yar_gte (yar_number x) (yar_number y) w = Returned (yar_bool false) w /\
    yar_eq (yar_number x) (yar_number y) = yar_bool false /\
    yar_neq (yar_number x) (yar_number y) = yar_bool true.
Proof.
  intros x y w H.
  assert (Hxy : SFcompare (Prim2SF x) (Prim2SF y) = None)
    by now apply SFcompare_nan_iff.
  assert (Hyx : SFcompare (Prim2SF y) (Prim2SF x) = None)
    by (apply SFcompare_nan_iff; tauto).
  unfold yar_lt, yar_lte, yar_gt, yar_gte, yar_neq, yar_eq.
  rewrite !compare_numbers_numbers. simpl. autorewrite with yar.
  rewrite !ltb_spec, !leb_spec, eqb_spec.
  unfold SFltb, SFleb, SFeqb. rewrite Hxy, Hyx. now repeat split.
Qed.

Lemma nan_compares_false_witness :
  yar_lte (yar_number nan) (yar_number nan) w0 = Returned (yar_bool false) w0.
Proof.
  apply (nan_compares_false nan nan w0). left. reflexivity.
Defined.

(** X7. Of two numbers neither of which is a NaN, exactly one of [<],
    [==] and [>] holds. *)
Theorem number_trichotomy :
  forall x y w,
    Prim2SF x <> S754_nan ->
    Prim2SF y <> S754_nan ->
    In (returned_bool (yar_lt (yar_number x) (yar_number y) w),
        yar_is_truthy (yar_eq (yar_number x) (yar_number y)),
        returned_bool (yar_gt (yar_number x) (yar_number y) w))
       [(Some true, false, Some false);
        (Some false, true, Some false);
        (Some false, false, Some true)].
Proof.
  intros x y w Hx Hy.
  unfold yar_lt, yar_gt, yar_eq. rewrite !compare_numbers_numbers. simpl.
  autorewrite with yar.
  rewrite !ltb_spec, eqb_spec, (SFltb_flip (Prim2SF x) (Prim2SF y)).
  unfold SFltb, SFeqb.
  destruct (SFcompare (Prim2SF x) (Prim2SF y)) as [[]|] eqn:E;
    [right; left; reflexivity|left; reflexivity|right; right; left; reflexivity|].
  apply SFcompare_nan_iff in E. tauto.
Qed.

Lemma number_trichotomy_witness :
  In (returned_bool (yar_lt (yar_number 1%float) (yar_number 2%float) w0),
      yar_is_truthy (yar_eq (yar_number 1%float) (yar_number 2%float)),
      returned_bool (yar_gt (yar_number 1%float) (yar_number 2%float) w0))
     [(Some true, false, Some false);
      (Some false, true, Some false);
      (Some false, false, Some true)].
Proof.
  apply (number_trichotomy 1%float 2%float w0); vm_compute; discriminate.
Defined.

(** X8. On all values, [a <= b] is [a < b] or [a == b], and [a >= b] is
    [a > b] or [a == b]: the same boolean on numbers, the same fatal error
    otherwise. *)
Theorem lte_is_lt_or_eq :
  forall a b w,
    yar_lte a b w = (l <- yar_lt a b ;; ret (yar_or l (yar_eq a b))) w /\
    yar_gte a b w = (g <- yar_gt a b ;; ret (yar_or g (yar_eq a b))) w.
Proof.
  intros a b w. unfold yar_lte, yar_lt, yar_gte, yar_gt, bind.
  destruct (yar_is_number a && yar_is_number b) eqn:H.
  - apply andb_prop in H. destruct H as [Ha Hb].
    unfold compare_numbers. rewrite Ha, Hb. simpl. unfold ret.
    unfold yar_is_number in Ha, Hb. apply Z.eqb_eq in Ha, Hb.
    unfold yar_or, yar_eq. rewrite Ha, Hb. simpl.
    rewrite !double_leb_ltb_eqb, (double_eqb_sym (as_number b) (as_number a)).
    now split.
  - rewrite !(compare_numbers_fatal _ a b w H). now split.
Qed.

(** ** Logical operators *)

(** X9. [yar_and], [yar_or] and [yar_not] always answer with a boolean
    value (never with one of the operands), that of the truthiness of the
    operands combined; they obey De Morgan's laws, commute, and a double
    negation is the truthiness of the operand. *)
Theorem logical_operators_boolean :
  (forall a b,
      yar_and a b = yar_bool (yar_is_truthy a && yar_is_truthy b) /\
      yar_or a b = yar_bool (yar_is_truthy a || yar_is_truthy b) /\
      yar_is_truthy (yar_and a b) = yar_is_truthy a && yar_is_truthy b /\
      yar_is_truthy (yar_or a b) = yar_is_truthy a || yar_is_truthy b /\
      yar_is_truthy (yar_not a) = negb (yar_is_truthy a)) /\
  (forall a b,
      yar_not (yar_and a b) = yar_or (yar_not a) (yar_not b) /\
      yar_not (yar_or a b) = yar_and (yar_not a) (yar_not b)) /\
  (forall a b, yar_and a b = yar_and b a /\ yar_or a b = yar_or b a) /\
  (forall v, yar_not (yar_not v) = yar_bool (yar_is_truthy v) /\
             yar_not (yar_not (yar_not v)) = yar_not v).
Proof.
  assert (Ht : forall x, yar_is_truthy (yar_bool x) = x) by reflexivity.
  repeat apply conj.
  - intros a b. unfold yar_and, yar_or, yar_not. rewrite !Ht. now repeat split.
  - intros a b. unfold yar_and, yar_or, yar_not. rewrite !Ht.
    now rewrite negb_andb, negb_orb.
  - intros a b. unfold yar_and, yar_or.
    now rewrite (andb_comm (yar_is_truthy b)), (orb_comm (yar_is_truthy b)).
  - intros v. unfold yar_not. rewrite !Ht. now rewrite negb_involutive.
Qed.

(** ** Equality is a partial equivalence *)

Section EqualityFacts.

Lemma SFeqb_true (a b : spec_float) :
  SFeqb a b = true ->
  (exists sa sb, a = S754_zero sa /\ b = S754_zero sb) \/ (a = b /\ a <> S754_nan).
Proof.
  unfold SFeqb.
  destruct a as [sa|sa| |sa ma ea], b as [sb|sb| |sb mb eb]; simpl;
    try discriminate; try (destruct sa; discriminate); try (destruct sb; discriminate).
  - intros _. left. eauto.
  - destruct sa, sb; try discriminate; intros _; right; split; congruence.
  - destruct sa, sb; try discriminate;
      destruct (ea ?= eb) eqn:E; try discriminate;
      apply Z.compare_eq in E; subst eb;
      destruct (Pos.compare_cont Eq ma mb) eqn:Em; try discriminate;
      apply Pos.compare_eq in Em; subst mb;
      intros _; right; split; congruence.
Qed.

Lemma SFeqb_trans (a b c : spec_float) :
  SFeqb a b = true -> SFeqb b c = true -> SFeqb a c = true.
Proof.
  intros Hab Hbc.
  destruct (SFeqb_true a b Hab) as [(sa & sb & -> & ->)|[-> Hn]].
  - destruct (SFeqb_true _ c Hbc) as [(sb' & sc & _ & ->)|[<- _]]; reflexivity.
  - exact Hbc.
Qed.

Lemma double_eqb_trans (x y z : float) :
  PrimFloat.eqb x y = true -> PrimFloat.eqb y z = true -> PrimFloat.eqb x z = true.
Proof. rewrite !eqb_spec. apply SFeqb_trans. Qed.

Lemma yar_bool_inj (x y : bool) : yar_bool x = yar_bool y -> x = y.
Proof. intros H. now injection H. Qed.

End EqualityFacts.

(** X10. Values that [yar_eq] finds equal have the same type tag, and
    [yar_eq] is transitive: with its symmetry it is an equivalence on the
    values equal to themselves. *)
Theorem eq_transitive :
  forall a b c,
    yar_eq a b = yar_bool true ->
    yar_eq b c = yar_bool true ->
    type a = type b /\ yar_eq a c = yar_bool true.
Proof.
  intros a b c Hab Hbc. unfold yar_eq in *.
  destruct (type a =? type b) eqn:Eab; simpl in Hab;
    [|apply yar_bool_inj in Hab; discriminate].
  destruct (type b =? type c) eqn:Ebc; simpl in Hbc;
    [|apply yar_bool_inj in Hbc; discriminate].
  apply Z.eqb_eq in Eab, Ebc. split; [exact Eab|].
  rewrite <- Ebc, <- Eab, Z.eqb_refl. simpl.
  rewrite <- Eab in Hbc. clear Eab Ebc.
  destruct (type a) as [|p|p]; [reflexivity| |exact Hab].
  destruct p as [[[p|p|]|[p|p|]|]|[[p|p|]|[p|p|]|]|]; try exact Hab.
  - apply yar_bool_inj in Hab, Hbc. f_equal.
    rewrite strcmp_eqb in *. apply String.eqb_eq in Hab, Hbc.
    apply String.eqb_eq. congruence.
  - apply yar_bool_inj in Hab, Hbc. f_equal.
    now apply (double_eqb_trans _ (as_number b)).
  - apply yar_bool_inj in Hab, Hbc. f_equal.
    apply Bool.eqb_prop in Hab, Hbc. rewrite Hab, Hbc.
    apply Bool.eqb_reflx.
Qed.

Lemma eq_transitive_witness :
  type (yar_number 0%float) = type (yar_number 0%float) /\
  yar_eq (yar_number 0%float) (yar_number 0%float) = yar_bool true.
Proof.
  apply (eq_transitive (yar_number 0%float) (yar_number neg_zero) (yar_number 0%float));
    reflexivity.
Defined.

(** ** String values *)

Section StringValueFacts.

Lemma c_str_prefix (s : string) : exists rest, s = c_str s ++ rest.
Proof.
  induction s as [|c r [rest IH]]; simpl.
  - exists EmptyString. reflexivity.
  - destruct (is_nul c).
    + exists (String c r). reflexivity.
    + exists rest. simpl. now rewrite <- IH.
Qed.

Lemma c_str_length (s : string) : (String.length (c_str s) <= String.length s)%nat.
Proof.
  induction s as [|c r IH]; simpl; [lia|].
  destruct (is_nul c); simpl; lia.
Qed.

Lemma c_str_cut (s rest : string) :
  nul_free s = true -> c_str (s ++ String NUL rest) = s.
Proof.
  induction s as [|c r IH]; simpl; [reflexivity|].
  intros H. apply andb_prop in H. destruct H as [Hc Hr].
  apply negb_true_iff in Hc. rewrite Hc. now rewrite IH.
Qed.

Lemma append_length (a b : string) :
  String.length (a ++ b) = (String.length a + String.length b)%nat.
Proof. induction a as [|c a IH]; simpl; [reflexivity|now rewrite IH]. Qed.

End StringValueFacts.

(** X11. [yar_string] keeps the bytes before the first NUL of its
    argument and nothing else: the stored content has no NUL, is a prefix
    of the argument no longer than it, is the whole argument when that has
    no NUL, and building a string from a stored content changes nothing;
    so two arguments that agree up to a NUL give equal strings. *)
Theorem string_keeps_c_content :
  (forall s,
      nul_free (as_string (yar_string s)) = true /\
      (exists rest, s = as_string (yar_string s) ++ rest) /\
      (String.length (as_string (yar_string s)) <= String.length s)%nat /\
      yar_string (as_string (yar_string s)) = yar_string s) /\
  (forall s, nul_free s = true -> as_string (yar_string s) = s) /\
  (forall s r r',
      nul_free s = true ->
      yar_string (s ++ String NUL r) = yar_string s /\
      yar_eq (yar_string (s ++ String NUL r)) (yar_string (s ++ String NUL r'))
      = yar_bool true).
Proof.
  repeat apply conj.
  - intros s. autorewrite with yar. repeat split.
    + apply c_str_nul_free.
    + apply c_str_prefix.
    + apply c_str_length.
    + unfold yar_string, strcpy. now rewrite c_str_idem.
  - intros s H. autorewrite with yar. now apply c_str_fixed.
  - intros s r r' H. unfold yar_string, strcpy.
    rewrite !(c_str_cut s _ H), (c_str_fixed s H). split; [reflexivity|].
    unfold yar_eq. simpl. unfold as_string. simpl.
    now rewrite strcmp_eqb, String.eqb_refl.
Qed.

Lemma string_keeps_c_content_witness :
  as_string (yar_string "yar") = "yar".
Proof.
  apply (proj1 (proj2 string_keeps_c_content)). reflexivity.
Defined.

(** X12. The length of a concatenation is the sum of the lengths: [yar_len]
    of the string [yar_add] returns is the number converted from the sum
    of the two content lengths, and the length of the empty string is the
    number zero. *)
Theorem len_of_concatenation :
  (forall s t w,
      (st <- yar_add (yar_string s) (yar_string t) ;; yar_len st) w
      = Returned
          (yar_number
             (double_of_Z (Z.of_nat (String.length (as_string (yar_string s)))
                           + Z.of_nat (String.length (as_string (yar_string t))))))
          w) /\
  (forall w, yar_len (yar_string EmptyString) w = Returned (yar_number 0%float) w).
Proof.
  split; [|reflexivity].
  intros s t w. unfold bind, yar_add, yar_len, yar_string, strcat, strcpy, as_string, ret.
  simpl. rewrite !c_str_idem, strlen_c_str.
  rewrite (c_str_fixed (c_str s ++ c_str t))
    by (apply nul_free_app; apply c_str_nul_free).
  now rewrite append_length, Nat2Z.inj_add.
Qed.

(** ** Type reflection *)

(** X13. [yar_type] of any value is a string value, truthy, holding the
    type name; printing it writes the name, and the type of a type is
    always "string". *)
Theorem type_of_type_is_string :
  forall v w,
    yar_is_string (yar_type v) = true /\
    yar_is_truthy (yar_type v) = true /\
    yar_print (yar_type v) w = printed w (yar_type_name v) /\
    yar_type (yar_type v) = yar_string "string" /\
    yar_eq (yar_type v) (yar_string (yar_type_name v)) = yar_bool true.
Proof.
  intros v w. repeat split.
  - unfold yar_print, yar_type, yar_string, printf, fprintf, bind, printed, strcpy.
    simpl. unfold as_string. simpl.
    now rewrite c_str_idem, type_name_nul_free, append_nil_r.
  - unfold yar_eq, yar_type. simpl.
    now rewrite strcmp_eqb, String.eqb_refl.
Qed.

(** ** The error channel and what the operators leave behind *)




Lemma fatal_shape {A} (w : World) (msg : string) (o : Outcome A) :
  o = fatal w msg -> returns_or_fatal w o.
Proof. intros ->. simpl. now exists msg. Qed.

(** X15. No operator writes to the output stream or returns in a changed
    state: each of [yar_add], [yar_subtract], [yar_multiply], [yar_divide],
    the four orderings, [yar_negate] and [yar_len] either returns with the
    process state as it was or is a fatal error (status 1, one line added
    to the error stream); [yar_modulo] may besides be undefined. *)
Theorem operators_return_or_fatal :
  (forall op a b w, In op binary_operators -> returns_or_fatal w (op a b w)) /\
  (forall v w, returns_or_fatal w (yar_negate v w) /\ returns_or_fatal w (yar_len v w)) /\
  (forall a b w,
      yar_modulo a b w = Undefined \/ returns_or_fatal w (yar_modulo a b w)).
Proof.
  repeat apply conj.
  - intros op a b w Hop. unfold binary_operators in Hop. simpl in Hop.
    destruct Hop as [<-|[<-|[<-|[<-|[<-|[<-|[<-|[<-|[]]]]]]]]].
    + unfold yar_add.
      destruct (yar_is_number a && yar_is_number b); [reflexivity|].
      destruct (yar_is_string a && yar_is_string b); [reflexivity|].
      eapply fatal_shape, yar_error_exits, format_add.
    + unfold yar_subtract.
      destruct (yar_is_number a && yar_is_number b); [reflexivity|].
      eapply fatal_shape, yar_error_exits, format_subtract.
    + unfold yar_multiply.
      destruct (yar_is_number a && yar_is_number b); [reflexivity|].
      eapply fatal_shape, yar_error_exits, format_multiply.
    + unfold yar_divide.
      destruct (yar_is_number a && yar_is_number b).
      * destruct (PrimFloat.eqb (as_number b) PrimFloat.zero); [|reflexivity].
        eapply fatal_shape, yar_error_exits. reflexivity.
      * eapply fatal_shape, yar_error_exits, format_divide.
    + unfold yar_lt, compare_numbers.
      destruct (yar_is_number a && yar_is_number b); [reflexivity|].
      eapply fatal_shape, yar_error_exits, format_compare.
    + unfold yar_gt, compare_numbers.
      destruct (yar_is_number a && yar_is_number b); [reflexivity|].
      eapply fatal_shape, yar_error_exits, format_compare.
    + unfold yar_lte, compare_numbers.
      destruct (yar_is_number a && yar_is_number b); [reflexivity|].
      eapply fatal_shape, yar_error_exits, format_compare.
    + unfold yar_gte, compare_numbers.
      destruct (yar_is_number a && yar_is_number b); [reflexivity|].
      eapply fatal_shape, yar_error_exits, format_compare.
  - intros v w. split.
    + unfold yar_negate. destruct (yar_is_number v); [reflexivity|].
      eapply fatal_shape, yar_error_exits, format_negate.
    + unfold yar_len. destruct (yar_is_string v); [reflexivity|].
      eapply fatal_shape, yar_error_exits, format_len.
  - intros a b w. unfold yar_modulo.
    destruct (yar_is_number a && yar_is_number b).
    + unfold bind, lift_option.
      destruct (long_of_double (as_number a)) as [x|]; simpl; [|now left].
      destruct (long_of_double (as_number b)) as [y|]; simpl; [|now left].
      destruct (long_rem x y) as [r|]; simpl; [now right|now left].
    + right. eapply fatal_shape, yar_error_exits, format_modulo.
Qed.

Lemma operators_return_or_fatal_witness :
  returns_or_fatal w0 (yar_divide (yar_number 1%float) (yar_number 0%float) w0).
Proof.
  apply (proj1 operators_return_or_fatal yar_divide).
  unfold binary_operators. simpl. auto.
Defined.

(** ** Printing and the console helpers of runtime.c *)

Lemma print_string (s : string) (w : World) :
  yar_print (yar_string s) w = printed w (c_str s).
Proof.
  unfold yar_print, printf, fprintf, bind, printed, yar_string, strcpy, as_string.
  simpl. now rewrite c_str_idem, append_nil_r.
Qed.

(** X16. Printing two strings one after the other writes what printing
    their concatenation writes, and printing the empty string writes
    nothing. *)
Theorem print_of_concatenation :
  (forall s t w,
      (yar_print (yar_string s) ;; yar_print (yar_string t)) w
      = (st <- yar_add (yar_string s) (yar_string t) ;; yar_print st) w) /\
  (forall w, yar_print (yar_string EmptyString) w = Returned tt w).
Proof.
  split.
  - intros s t w. unfold bind. rewrite print_string. unfold printed.
    rewrite print_string.
    assert (Ha : yar_add (yar_string s) (yar_string t) w
                 = Returned (yar_string (c_str s ++ c_str t)) w).
    { unfold yar_add, ret, yar_string, strcat, strcpy, as_string. simpl.
      rewrite !c_str_idem. do 3 f_equal. symmetry.
      apply c_str_fixed, nul_free_app; apply c_str_nul_free. }
    rewrite Ha, print_string. unfold printed. simpl.
    rewrite (c_str_fixed (c_str s ++ c_str t))
      by (apply nul_free_app; apply c_str_nul_free).
    now rewrite append_assoc.
  - intros w. rewrite print_string. unfold printed. simpl.
    rewrite append_nil_r. now destruct w.
Qed.

(** X17. The console helpers agree with the value printer: [println] of a
    C string writes what [yar_println] writes for the string value built
    from it, the content and a newline, and [println_bool] what
    [yar_println] writes for the boolean value. *)
Theorem println_agrees_with_value_printer :
  (forall msg w,
      println msg w = printed w (c_str msg ++ newline) /\
      println msg w = yar_println (yar_string msg) w) /\
  (forall b w,
      println_bool b w = printed w ((if b then "true" else "false") ++ newline) /\
      println_bool b w = yar_println (yar_bool b) w).
Proof.
  split.
  - intros msg w.
    assert (H : println msg w = printed w (c_str msg ++ newline)) by reflexivity.
    split; [exact H|]. rewrite H.
    unfold yar_println, bind. rewrite print_string.
    unfold printed, printf, fprintf, bind, newline. simpl.
    now rewrite append_assoc.
  - intros b w. destruct b; split; try reflexivity;
      unfold println_bool, yar_println, yar_print, printf, fprintf, bind, newline;
      simpl; now rewrite append_assoc.
Qed.

Lemma append_cancel_l (a x y : string) : a ++ x = a ++ y -> x = y.
Proof.
  induction a as [|c a IH]; simpl; [tauto|].
  intros H. injection H as H. now apply IH.
Qed.

(** X18. [panic] never returns: it leaves the output stream untouched,
    adds the line "panic: " followed by the message to the error stream
    and exits with status 1, as [yar_error] does; but its line is never a
    "Runtime error: " line, whatever the two messages. *)
Theorem panic_exits :
  forall msg w,
    panic msg w
    = Exited 1 (mkWorld (stdout w) (stderr w ++ "panic: " ++ c_str msg ++ newline)) /\
    (forall m, panic msg w <> fatal w m).
Proof.
  intros msg w. split; [reflexivity|].
  intros m H. unfold panic, fatal, fprintf, bind, exit in H. simpl in H.
  injection H as H. apply append_cancel_l in H. discriminate H.
Qed.

(** X19. What [println_i32] writes reads back as the integer: the line is
    the decimal text of the value, which parses to the value again, and a
    newline. *)
Theorem println_i32_round_trip :
  forall value w,
    exists text,
      println_i32 value w = printed w (text ++ newline) /\
      option_map Z.of_int (NilZero.int_of_string text) = Some value.
Proof.
  intros value w. exists (fmt_d value). split; [reflexivity|].
  unfold fmt_d. rewrite NilZero.isi.
  - simpl. now rewrite DecimalZ.of_to.
  - destruct value; simpl; try discriminate.
    intros H. injection H as H. now apply (DecimalPos.Unsigned.to_uint_nonnil p).
  - destruct value; simpl; try discriminate.
    intros H. injection H as H. now apply (DecimalPos.Unsigned.to_uint_nonnil p).
Qed.

(** ** Integers through doubles *)

Section LongRoundTrip.

Lemma represents_integral_part (d : float) (n : Z) :
  represents d n -> integral_part (Prim2SF d) = Some n.
Proof.
  unfold represents, integral_part.
  destruct (Prim2SF d) as [s|s| |s m e]; try contradiction.
  - now intros ->.
  - cbv zeta. destruct (0 <=? e) eqn:E.
    + intros ->. destruct s; f_equal.
      change (Zneg m) with (- Zpos m). ring.
    + apply Z.leb_gt in E. intros H.
      assert (Hp : 0 < 2 ^ (- e)) by (apply Z.pow_pos_nonneg; lia).
      destruct s; f_equal.
      * assert (Hm : Zpos m = (- n) * 2 ^ (- e)).
        { change (Zneg m) with (- Zpos m) in H. lia. }
        rewrite Hm, Z.div_mul by lia. lia.
      * rewrite <- H, Z.div_mul by lia. reflexivity.
Qed.

Lemma long_of_double_of_Z (n : Z) :
  Z.abs n < 2 ^ 53 -> long_of_double (double_of_Z n) = Some n.
Proof.
  intros H. unfold long_of_double.
  rewrite (represents_integral_part _ n (double_of_Z_exact n H)).
  assert (Hr : in_long n = true).
  { unfold in_long, LONG_MIN, LONG_MAX. apply andb_true_intro.
    split; apply Z.leb_le; lia. }
  now rewrite Hr.
Qed.

End LongRoundTrip.

(** X20. An integer below 2^53 in magnitude survives the conversion to a
    double and back to a [long]; so [yar_modulo] on two such integers, the
    second not zero, is the number of their remainder, exactly. *)
Theorem modulo_of_integers :
  (forall n, Z.abs n < 2 ^ 53 -> long_of_double (double_of_Z n) = Some n) /\
  (forall a b w,
      Z.abs a < 2 ^ 53 -> Z.abs b < 2 ^ 53 -> b <> 0 ->
      yar_modulo (yar_number (double_of_Z a)) (yar_number (double_of_Z b)) w
      = Returned (yar_number (double_of_Z (Z.rem a b))) w /\
      represents (double_of_Z (Z.rem a b)) (Z.rem a b)).
Proof.
  split; [exact long_of_double_of_Z|].
  intros a b w Ha Hb Hnz. split.
  - unfold yar_modulo, bind, lift_option, yar_is_number, as_number, yar_number. simpl.
    rewrite (long_of_double_of_Z a Ha). simpl.
    rewrite (long_of_double_of_Z b Hb). simpl.
    unfold long_rem. apply Z.eqb_neq in Hnz. rewrite Hnz.
    assert (Hm : (a =? LONG_MIN) = false).
    { apply Z.eqb_neq. unfold LONG_MIN. lia. }
    now rewrite Hm.
  - apply double_of_Z_exact.
    pose proof (Z.rem_bound_abs a b Hnz). lia.
Qed.

Lemma modulo_of_integers_witness :
  yar_modulo (yar_number (double_of_Z (-17))) (yar_number (double_of_Z 5)) w0
  = Returned (yar_number (double_of_Z (Z.rem (-17) 5))) w0.
Proof.
  apply (proj2 modulo_of_integers (-17) 5 w0); simpl; lia.
Defined.

(** X21. When both casts are defined, the divisor's integral part [b] is
    not zero and the pair is not [(LONG_MIN, -1)], [yar_modulo] returns in
    the same state the number converted from the integer [r] with
    [a = b * q + r] for the truncated quotient [q]: [r] is smaller in
    magnitude than [b], has the sign of the dividend's integral part [a]
    (or is zero), and is converted exactly when [b] is at most 2^53 in
    magnitude, however large [a] is. *)
Theorem modulo_result_is_bounded :
  forall x y a b w,
    long_of_double x = Some a ->
    long_of_double y = Some b ->
    b <> 0 ->
    (a <> LONG_MIN \/ b <> -1) ->
    exists r,
      yar_modulo (yar_number x) (yar_number y) w
      = Returned (yar_number (double_of_Z r)) w /\
      a = b * Z.quot a b + r /\
      Z.abs r < Z.abs b /\ (0 <= a -> 0 <= r) /\ (a <= 0 -> r <= 0) /\
      (Z.abs b <= 2 ^ 53 -> represents (double_of_Z r) r).
Proof.
  intros x y a b w Hx Hy Hb Hab. exists (Z.rem a b).
  pose proof (Z.rem_bound_abs a b Hb) as Hr.
  repeat split.
  - unfold yar_modulo, bind, lift_option, yar_is_number, as_number, yar_number. simpl.
    rewrite Hx. simpl. rewrite Hy. simpl.
    unfold long_rem. apply Z.eqb_neq in Hb. rewrite Hb.
    assert (Hm : (a =? LONG_MIN) && (b =? -1) = false).
    { apply andb_false_iff. destruct Hab as [H|H]; [left|right]; now apply Z.eqb_neq. }
    now rewrite Hm.
  - now apply Z.quot_rem'.
  - exact Hr.
  - intros Hge. now apply Z.rem_nonneg.
  - intros Hle. now apply Z.rem_nonpos.
  - intros Hle. apply double_of_Z_exact. lia.
Qed.

Lemma modulo_result_is_bounded_witness :
  exists r,
    yar_modulo (yar_number 7.5%float) (yar_number (-2)%float) w0
    = Returned (yar_number (double_of_Z r)) w0 /\
    7 = -2 * Z.quot 7 (-2) + r /\
    Z.abs r < Z.abs (-2) /\ (0 <= 7 -> 0 <= r) /\ (7 <= 0 -> r <= 0) /\
    (Z.abs (-2) <= 2 ^ 53 -> represents (double_of_Z r) r).
Proof.
  apply (modulo_result_is_bounded 7.5%float (-2)%float 7 (-2) w0).
  - reflexivity.
  - reflexivity.
  - discriminate.
  - right. discriminate.
Defined.

(** ** NaN in arithmetic *)

Section NanFacts.

Lemma SFadd_nan (x y : spec_float) :
  x = S754_nan \/ y = S754_nan -> SFadd prec emax x y = S754_nan.
Proof. intros [->| ->]; [reflexivity|]. now destruct x. Qed.

Lemma SFsub_nan (x y : spec_float) :
  x = S754_nan \/ y = S754_nan -> SFsub prec emax x y = S754_nan.
Proof. intros [->| ->]; [reflexivity|]. now destruct x. Qed.

Lemma SFmul_nan (x y : spec_float) :
  x = S754_nan \/ y = S754_nan -> SFmul prec emax x y = S754_nan.
Proof. intros [->| ->]; [reflexivity|]. now destruct x. Qed.

Lemma SFdiv_nan (x y : spec_float) :
  x = S754_nan \/ y = S754_nan -> SFdiv prec emax x y = S754_nan.
Proof. intros [->| ->]; [reflexivity|]. now destruct x. Qed.

End NanFacts.

(** X22. NaN spreads through arithmetic without any error: with a NaN
    operand [yar_add], [yar_subtract] and [yar_multiply] return a NaN
    number, [yar_negate] of a NaN is a NaN, and so does [yar_divide] unless
    the divisor compares equal to zero, which is the fatal error even for
    a NaN dividend. *)
Theorem nan_spreads :
  (forall x y w,
      Prim2SF x = S754_nan \/ Prim2SF y = S754_nan ->
      (exists r, yar_add (yar_number x) (yar_number y) w = Returned (yar_number r) w
                 /\ Prim2SF r = S754_nan) /\
      (exists r, yar_subtract (yar_number x) (yar_number y) w = Returned (yar_number r) w
                 /\ Prim2SF r = S754_nan) /\
      (exists r, yar_multiply (yar_number x) (yar_number y) w = Returned (yar_number r) w
                 /\ Prim2SF r = S754_nan) /\
      (PrimFloat.eqb y PrimFloat.zero = false ->
       exists r, yar_divide (yar_number x) (yar_number y) w = Returned (yar_number r) w
                 /\ Prim2SF r = S754_nan)) /\
  (forall x w,
      Prim2SF x = S754_nan ->
      exists r, yar_negate (yar_number x) w = Returned (yar_number r) w
                /\ Prim2SF r = S754_nan) /\
  (forall w, yar_divide (yar_number nan) (yar_number 0%float) w
             = fatal w "Division by zero").
Proof.
  repeat apply conj.
  - intros x y w H. repeat split.
    + eexists. split; [reflexivity|]. rewrite add_spec. now apply SFadd_nan.
    + eexists. split; [reflexivity|]. rewrite sub_spec. now apply SFsub_nan.
    + eexists. split; [reflexivity|]. rewrite mul_spec. now apply SFmul_nan.
    + intros Hz. eexists. split.
      * unfold yar_divide, yar_is_number, as_number, yar_number. simpl.
        rewrite Hz. reflexivity.
      * rewrite div_spec. now apply SFdiv_nan.
  - intros x w H. eexists. split; [reflexivity|].
    rewrite opp_spec. autorewrite with yar. now rewrite H.
  - intros w. unfold yar_divide, yar_is_number, as_number, yar_number. simpl.
    now apply yar_error_exits.
Qed.

Lemma nan_spreads_witness :
  exists r, yar_add (yar_number nan) (yar_number 1%float) w0 = Returned (yar_number r) w0
            /\ Prim2SF r = S754_nan.
Proof.
  destruct (proj1 nan_spreads nan 1%float w0) as [H _];
    [left; reflexivity|exact H].
Defined.

(** ** What an operator can return *)

Lemma error_then_not_returned {A} (fmt : string) (args : list Arg) (k : Run A)
      (w : World) (v : A) (w' : World) :
  (yar_error fmt args ;; k) w <> Returned v w'.
Proof.
  unfold yar_error, fprintf, bind, exit. simpl.
  destruct (format fmt args); simpl; discriminate.
Qed.

Ltac returned_value H :=
  first [ now apply error_then_not_returned in H
        | unfold ret in H; injection H as <- _; repeat split; auto ].

(** X23. The nil (or false) written after each call of [yar_error] is
    never returned: what an arithmetic operator returns is a number, or a
    string for [yar_add], and so is truthy even when it is zero or NaN;
    what [yar_negate] and [yar_len] return is a number; what an ordering
    returns is a boolean, and then both operands were numbers. *)
Theorem returned_values_have_result_type :
  (forall op a b w v w',
      In op [yar_add; yar_subtract; yar_multiply; yar_divide; yar_modulo] ->
      op a b w = Returned v w' ->
      (yar_is_number v = true \/ yar_is_string v = true) /\ yar_is_truthy v = true) /\
  (forall op a b w v w',
      In op [yar_lt; yar_gt; yar_lte; yar_gte] ->
      op a b w = Returned v w' ->
      yar_is_bool v = true /\ yar_is_number a = true /\ yar_is_number b = true) /\
  (forall x w v w',
      (yar_negate x w = Returned v w' -> yar_is_number v = true) /\
      (yar_len x w = Returned v w' -> yar_is_number v = true /\ yar_is_string x = true)).
Proof.
  repeat apply conj.
  - intros op a b w v w' Hop H. simpl in Hop.
    destruct Hop as [<-|[<-|[<-|[<-|[<-|[]]]]]].
    + unfold yar_add in H.
      destruct (yar_is_number a && yar_is_number b); [returned_value H|].
      destruct (yar_is_string a && yar_is_string b); returned_value H.
    + unfold yar_subtract in H.
      destruct (yar_is_number a && yar_is_number b); returned_value H.
    + unfold yar_multiply in H.
      destruct (yar_is_number a && yar_is_number b); returned_value H.
    + unfold yar_divide in H.
      destruct (yar_is_number a && yar_is_number b); [|returned_value H].
      destruct (PrimFloat.eqb (as_number b) PrimFloat.zero); returned_value H.
    + unfold yar_modulo in H.
      destruct (yar_is_number a && yar_is_number b); [|returned_value H].
      unfold bind, lift_option in H.
      destruct (long_of_double (as_number a)); simpl in H; [|discriminate].
      destruct (long_of_double (as_number b)); simpl in H; [|discriminate].
      destruct (long_rem _ _); simpl in H; [|discriminate].
      returned_value H.
  - intros op a b w v w' Hop H. simpl in Hop.
    assert (Hc : forall f, compare_numbers f a b w = Returned v w' ->
                 yar_is_bool v = true /\ yar_is_number a = true /\ yar_is_number b = true).
    { intros f Hf. unfold compare_numbers in Hf.
      destruct (yar_is_number a && yar_is_number b) eqn:E.
      - apply andb_prop in E. unfold ret in Hf. injection Hf as <- _.
        split; [reflexivity|exact E].
      - now apply error_then_not_returned in Hf. }
    destruct Hop as [<-|[<-|[<-|[<-|[]]]]]; exact (Hc _ H).
  - intros x w v w'. split.
    + intros H. unfold yar_negate in H.
      destruct (yar_is_number x); returned_value H.
    + intros H. unfold yar_len in H.
      destruct (yar_is_string x) eqn:E; returned_value H.
Qed.

Lemma returned_values_have_result_type_witness :
  (yar_is_number (yar_number 0%float) = true \/ yar_is_string (yar_number 0%float) = true)
  /\ yar_is_truthy (yar_number 0%float) = true.
Proof.
  apply (proj1 returned_values_have_result_type yar_subtract
               (yar_number 1%float) (yar_number 1%float) w0 (yar_number 0%float) w0).
  - simpl. auto.
  - reflexivity.
Defined.
